(** * Yambot overlay: the spin engine, the transport and the layout code

    A shallow embedding of [assets/overlay/js/wheel.js] (class
    [SpinningWheel]) and of the overlay's main script (connection handling,
    event dispatch, layout application, the resize and drag gestures,
    [send]).

    Conventions of the embedding.
    - The numbers of the spin engine (rotations, the easing, the winner
      index) are binary64 values, [float]: every operation of the source is
      one rounded operation here.  [%], [Math.floor], [Math.min] and
      [Number] of an integer are written out on the sign, mantissa and
      exponent of their operands ([Binary64]).  [Math.pow] is the one
      operation whose result the language leaves to the platform; the value
      it returns is an input of the model, next to the draws of
      [Math.random] and the readings of [Date.now].
    - The numbers of the layout code (positions, scales, pointer
      coordinates) are [number]: NaN, the two infinities, or a finite value
      carried as an exact rational.  A decimal literal of the source stands
      for its decimal value; the rounding of doubles and the sign of zero
      are left out there.
    - A value parsed from a text frame is [value] (the JSON data model plus
      [undefined]).
    - Code that can throw returns a [completion].
    - The browser is an explicit [world]: the pending timers, the pending
      animation frame callbacks, the WebSocket objects, the frames handed to
      [WebSocket.send], the console, and the part of the document the
      scripts read and write.  Closures are defunctionalised ([callback],
      [animation]).  Canvas drawing ([draw]) writes nothing the scripts
      read back and is left out. *)

From Stdlib Require Import List Bool ZArith QArith Qround Qminmax String Lia Lqa.
From Stdlib Require Import Floats.
Import ListNotations.

Open Scope string_scope.
Open Scope list_scope.
Open Scope Q_scope.

#[local] Set Warnings "-register-all".

(** ** Numbers of the layout code *)

Inductive number : Type :=
  | NaN
  | PInf
  | NInf
  | Fin (q : Q).

Definition Qsign_pos (q : Q) : bool := negb (Qle_bool q 0).
Definition Qis_zero (q : Q) : bool := Qeq_bool q 0.

(** Infinity with the sign of [q] (and of a positive zero). *)
Definition inf_signed (positive : bool) : number :=
  if positive then PInf else NInf.

(** [a + b] *)
Definition nadd (a b : number) : number :=
  match a, b with
  | NaN, _ | _, NaN => NaN
  | PInf, NInf | NInf, PInf => NaN
  | PInf, _ | _, PInf => PInf
  | NInf, _ | _, NInf => NInf
  | Fin x, Fin y => Fin (x + y)
  end.


(** [a / b] *)
Definition ndiv (a b : number) : number :=
  match a, b with
  | NaN, _ | _, NaN => NaN
  | Fin x, Fin y =>
      if Qis_zero y
      then (if Qis_zero x then NaN else inf_signed (Qsign_pos x))
      else Fin (x / y)
  | Fin _, (PInf | NInf) => Fin 0
  | PInf, Fin y => inf_signed (Qle_bool 0 y)
  | NInf, Fin y => inf_signed (negb (Qle_bool 0 y))
  | (PInf | NInf), (PInf | NInf) => NaN
  end.

(** [a < b] *)
Definition nlt (a b : number) : bool :=
  match a, b with
  | NaN, _ | _, NaN => false
  | _, NInf => false
  | NInf, _ => true
  | PInf, _ => false
  | Fin _, PInf => true
  | Fin x, Fin y => negb (Qle_bool y x)
  end.

(** [Math.min(a, b)] and [Math.max(a, b)]: NaN when an argument is NaN. *)
Definition Math_min (a b : number) : number :=
  match a, b with
  | NaN, _ | _, NaN => NaN
  | _, _ => if nlt b a then b else a
  end.

Definition Math_max (a b : number) : number :=
  match a, b with
  | NaN, _ | _, NaN => NaN
  | _, _ => if nlt a b then b else a
  end.

(** The same number: equal as rationals when finite. *)
Definition same_number (a b : number) : Prop :=
  match a, b with
  | NaN, NaN | PInf, PInf | NInf, NInf => True
  | Fin x, Fin y => x == y
  | _, _ => False
  end.

(** ** Binary64 numbers of the spin engine *)

(** [Math.PI]: the double nearest to pi, 884279719003555 * 2^-48. *)
Definition Math_PI : float := 0x1.921fb54442d18p+1%float.

Module Binary64.

(** The double of an integer: the nearest one, ties to even. *)
Definition of_Z (z : Z) : float :=
  SF2Prim (binary_normalize prec emax z 0 false).

Definition of_nat (n : nat) : float := of_Z (Z.of_nat n).

(** [x % y]: NaN when [x] is infinite or [y] is zero, [x] when [x] is zero
    or [y] is infinite; otherwise the exact remainder of the truncated
    quotient, which carries the sign of [x] and is a double.  Both operands
    are brought to the smaller exponent, where they are integers. *)
Definition rem (x y : float) : float :=
  match Prim2SF x, Prim2SF y with
  | S754_nan, _ | _, S754_nan => nan
  | S754_infinity _, _ => nan
  | _, S754_zero _ => nan
  | S754_zero _, _ => x
  | S754_finite _ _ _, S754_infinity _ => x
  | S754_finite sx mx ex, S754_finite _ my ey =>
      let e := Z.min ex ey in
      let X := Z.shiftl (Zpos mx) (ex - e) in
      let Y := Z.shiftl (Zpos my) (ey - e) in
      SF2Prim (binary_normalize prec emax (cond_Zopp sx (X mod Y)) e sx)
  end.

(** [Math.floor(x)]: [x] itself when it is NaN, infinite, a zero or an
    integer. *)
Definition Math_floor (x : float) : float :=
  match Prim2SF x with
  | S754_finite s m e =>
      if (0 <=? e)%Z then x
      else
        let q := Z.shiftr (Zpos m) (- e) in
        if Z.eqb (Z.shiftl q (- e)) (Zpos m) then x
        else if s then (- of_Z (q + 1))%float else of_Z q
  | _ => x
  end.

(** [Math.min(a, b)]: NaN when an argument is NaN; the negative zero is
    below the positive one. *)
Definition Math_min (a b : float) : float :=
  if is_nan a || is_nan b then nan
  else if (b <? a)%float then b
  else if (a <? b)%float then a
  else if get_sign a then a else b.

(** [Math.pow(base, 3)].  The language fixes the result for a base that is
    NaN, a zero or infinite (the exponent is an odd positive integer: the
    base itself) and leaves it to the platform otherwise; [platform] is
    what the platform returns then. *)
Definition Math_pow3 (platform : float) (base : float) : float :=
  if is_nan base then nan
  else if is_zero base || is_infinity base then base
  else platform.

(** The integer a double is, if it is one. *)
Definition integer (x : float) : option Z :=
  match Prim2SF x with
  | S754_zero _ => Some 0%Z
  | S754_finite s m e =>
      if (0 <=? e)%Z then Some (cond_Zopp s (Z.shiftl (Zpos m) e))
      else
        let q := Z.shiftr (Zpos m) (- e) in
        if Z.eqb (Z.shiftl q (- e)) (Zpos m) then Some (cond_Zopp s q) else None
  | _ => None
  end.


End Binary64.

(** ** Values *)

Inductive value : Type :=
  | VUndefined
  | VNull
  | VBool (b : bool)
  | VNumber (n : number)
  | VString (s : string)
  | VArray (elements : list value)
  | VObject (fields : list (string * value)).

(** ToBoolean: the falsy values are [undefined], [null], [false], zero,
    NaN and the empty string. *)
Definition truthy (v : value) : bool :=
  match v with
  | VUndefined | VNull => false
  | VBool b => b
  | VNumber NaN => false
  | VNumber (Fin q) => negb (Qis_zero q)
  | VNumber _ => true
  | VString s => negb (String.eqb s "")
  | VArray _ | VObject _ => true
  end.

(** [a || b] *)
Definition js_or (a b : value) : value := if truthy a then a else b.

Definition Array_isArray (v : value) : bool :=
  match v with VArray _ => true | _ => false end.

(** The elements of an array value. *)
Definition elements_of (v : value) : list value :=
  match v with VArray elements => elements | _ => [] end.

(** [v === 'literal'] *)
Definition is_string (v : value) (literal : string) : bool :=
  match v with VString s => String.eqb s literal | _ => false end.

(** Own property of an object built by [JSON.parse] or by an object
    literal (distinct keys). *)
Fixpoint own_property (fields : list (string * value)) (key : string) : value :=
  match fields with
  | [] => VUndefined
  | (k, v) :: rest => if String.eqb k key then v else own_property rest key
  end.

(** ** Completions *)

Inductive completion (A : Type) : Type :=
  | Normal (a : A)
  | Throw (error : string).
Arguments Normal {A} a.
Arguments Throw {A} error.

Definition bind {A B : Type} (c : completion A) (k : A -> completion B)
  : completion B :=
  match c with
  | Normal a => k a
  | Throw e => Throw e
  end.

Notation "'let!' x ':=' c 'in' k" := (bind c (fun x => k))
  (at level 10, x name, c at level 100, k at level 200).

(** [v.key] for one of the names the scripts read ([type], [action_type],
    [data], [items], [actions], [positions], [wheel], [x], [y], [scale]):
    a TypeError on [undefined] and [null]; none of these names is a
    property of an array, a string, a number or a boolean. *)
Definition get (v : value) (key : string) : completion value :=
  match v with
  | VUndefined | VNull => Throw "TypeError"
  | VObject fields => Normal (own_property fields key)
  | _ => Normal VUndefined
  end.

(** [v?.key] *)
Definition get_optional (v : value) (key : string) : value :=
  match v with
  | VObject fields => own_property fields key
  | _ => VUndefined
  end.

(** [v?.[key]] for a label [key].  On the wire labels are strings and
    [actions] is an object: the own property named by the label.  The string
    form of a non-string label, the properties an object inherits and the
    indices of an array or a string are outside this model and read as
    [undefined]. *)
Definition get_optional_computed (v : value) (key : value) : value :=
  match v, key with
  | VObject fields, VString label => own_property fields label
  | _, _ => VUndefined
  end.

(** [elements[index]] for an array built by [JSON.parse]: the property
    named by the string form of [index], which is an element when [index] is
    an integer inside the array (a zero of either sign names element 0), and
    [undefined] for every other number. *)
Definition array_get (elements : list value) (index : float) : value :=
  match Binary64.integer index with
  | Some z =>
      if (0 <=? z)%Z && (z <? Z.of_nat (List.length elements))%Z
      then nth (Z.to_nat z) elements VUndefined
      else VUndefined
  | None => VUndefined
  end.

(** ** The browser state *)

(** The closures the scripts hand to [setTimeout]. *)
Inductive callback : Type :=
  | reconnect_after_close   (* in [ws.onclose] *)
  | reconnect_after_throw   (* in the [catch] of [connect] *)
  | result_fade             (* the outer closure of [showResult] *)
  | result_clear            (* the inner closure of [showResult] *)
  | hide_container.         (* the closure of [hide] *)

Record timer : Type := {
  timer_id : positive;
  timer_delay : Z;
  timer_callback : callback
}.

(** The closure [animate] of [spin], with the variables it captures; the
    promise it resolves is awaited by [spinAndShow] alone, whose remaining
    code needs [wheelData]. *)
Record animation : Type := {
  startTime : Z;
  startRotation : float;
  totalRotation : float;
  wheelData : value
}.

Inductive readyState : Type := CONNECTING | OPEN | CLOSING | CLOSED.

Record socket : Type := {
  socket_id : positive;
  socket_state : readyState
}.

(** A text frame given to [WebSocket.send]: the JSON text of a value. *)
Inductive text_frame : Type :=
  | JSON_stringify (data : value).

Inductive console_entry : Type :=
  | console_log (message : string)
  | console_warn (message : string)
  | console_error (message : string).

(** [style.transform] of the wheel container: empty until a script writes
    it, then one of the two templates of the source. *)
Inductive transform : Type :=
  | transform_empty
  | transform_scale (scale : value)              (* `scale(${scale})` *)
  | transform_translate_scale (scale : value).   (* `translate(-50%, -50%) scale(${scale})` *)

(** What the scripts read and write of [#wheel-container] and
    [#wheel-result].  Interpolated and assigned values are kept as the
    values, not as their string forms.  A style field holds what the script
    assigned last; whether the style engine keeps a text it cannot parse is
    not modelled. *)
Record document : Type := {
  container_hidden : bool;
  container_left : option value;
  container_top : option value;
  container_transform : transform;
  container_dataset_scale : option value;
  result_textContent : value;
  result_hidden : bool;
  result_fade_out : bool
}.

(** The fields of a [SpinningWheel] that change after construction. *)
Record SpinningWheel : Type := {
  items : list value;
  currentRotation : float;
  isSpinning : bool;
  isShowingResult : bool;
  hideTimeout : option positive;
  resultTimeout : option positive
}.

Record world : Type := {
  wheel : SpinningWheel;
  doc : document;
  ws : option positive;
  reconnectTimeout : option positive;
  sockets : list socket;
  next_socket : positive;
  timers : list timer;
  next_timer : positive;
  frames : list animation;
  wire : list (positive * text_frame);
  console : list console_entry
}.

(** *** Field updates *)

Definition set_items (v : list value) (w : SpinningWheel) : SpinningWheel :=
  {| items := v; currentRotation := currentRotation w;
     isSpinning := isSpinning w; isShowingResult := isShowingResult w;
     hideTimeout := hideTimeout w; resultTimeout := resultTimeout w |}.

Definition set_currentRotation (v : float) (w : SpinningWheel) : SpinningWheel :=
  {| items := items w; currentRotation := v;
     isSpinning := isSpinning w; isShowingResult := isShowingResult w;
     hideTimeout := hideTimeout w; resultTimeout := resultTimeout w |}.

Definition set_isSpinning (v : bool) (w : SpinningWheel) : SpinningWheel :=
  {| items := items w; currentRotation := currentRotation w;
     isSpinning := v; isShowingResult := isShowingResult w;
     hideTimeout := hideTimeout w; resultTimeout := resultTimeout w |}.

Definition set_isShowingResult (v : bool) (w : SpinningWheel) : SpinningWheel :=
  {| items := items w; currentRotation := currentRotation w;
     isSpinning := isSpinning w; isShowingResult := v;
     hideTimeout := hideTimeout w; resultTimeout := resultTimeout w |}.

Definition set_hideTimeout (v : option positive) (w : SpinningWheel) : SpinningWheel :=
  {| items := items w; currentRotation := currentRotation w;
     isSpinning := isSpinning w; isShowingResult := isShowingResult w;
     hideTimeout := v; resultTimeout := resultTimeout w |}.

Definition set_resultTimeout (v : option positive) (w : SpinningWheel) : SpinningWheel :=
  {| items := items w; currentRotation := currentRotation w;
     isSpinning := isSpinning w; isShowingResult := isShowingResult w;
     hideTimeout := hideTimeout w; resultTimeout := v |}.

Definition set_container_hidden (v : bool) (d : document) : document :=
  {| container_hidden := v; container_left := container_left d;
     container_top := container_top d;
     container_transform := container_transform d;
     container_dataset_scale := container_dataset_scale d;
     result_textContent := result_textContent d;
     result_hidden := result_hidden d; result_fade_out := result_fade_out d |}.

Definition set_result_textContent (v : value) (d : document) : document :=
  {| container_hidden := container_hidden d; container_left := container_left d;
     container_top := container_top d;
     container_transform := container_transform d;
     container_dataset_scale := container_dataset_scale d;
     result_textContent := v;
     result_hidden := result_hidden d; result_fade_out := result_fade_out d |}.

Definition set_result_hidden (v : bool) (d : document) : document :=
  {| container_hidden := container_hidden d; container_left := container_left d;
     container_top := container_top d;
     container_transform := container_transform d;
     container_dataset_scale := container_dataset_scale d;
     result_textContent := result_textContent d;
     result_hidden := v; result_fade_out := result_fade_out d |}.

Definition set_result_fade_out (v : bool) (d : document) : document :=
  {| container_hidden := container_hidden d; container_left := container_left d;
     container_top := container_top d;
     container_transform := container_transform d;
     container_dataset_scale := container_dataset_scale d;
     result_textContent := result_textContent d;
     result_hidden := result_hidden d; result_fade_out := v |}.

(** The four writes of [applyPositions].  [container_transform] is the
    template the script assigns to [style.transform], with the value it
    interpolates (the style engine refuses a [scale(...)] whose argument is
    not a number, see above).  [dataset.scale] keeps whatever is
    assigned. *)
Definition set_layout (x y scale : value) (d : document) : document :=
  {| container_hidden := container_hidden d; container_left := Some x;
     container_top := Some y;
     container_transform := transform_translate_scale scale;
     container_dataset_scale := Some scale;
     result_textContent := result_textContent d;
     result_hidden := result_hidden d; result_fade_out := result_fade_out d |}.

(** The two writes of [resize], with the same reading of
    [container_transform]. *)
Definition set_scale (t : transform) (scale : value) (d : document) : document :=
  {| container_hidden := container_hidden d; container_left := container_left d;
     container_top := container_top d;
     container_transform := t;
     container_dataset_scale := Some scale;
     result_textContent := result_textContent d;
     result_hidden := result_hidden d; result_fade_out := result_fade_out d |}.

Definition with_wheel (f : SpinningWheel -> SpinningWheel) (st : world) : world :=
  {| wheel := f (wheel st); doc := doc st; ws := ws st;
     reconnectTimeout := reconnectTimeout st; sockets := sockets st;
     next_socket := next_socket st; timers := timers st;
     next_timer := next_timer st; frames := frames st; wire := wire st;
     console := console st |}.

Definition with_doc (f : document -> document) (st : world) : world :=
  {| wheel := wheel st; doc := f (doc st); ws := ws st;
     reconnectTimeout := reconnectTimeout st; sockets := sockets st;
     next_socket := next_socket st; timers := timers st;
     next_timer := next_timer st; frames := frames st; wire := wire st;
     console := console st |}.

Definition set_ws (v : option positive) (st : world) : world :=
  {| wheel := wheel st; doc := doc st; ws := v;
     reconnectTimeout := reconnectTimeout st; sockets := sockets st;
     next_socket := next_socket st; timers := timers st;
     next_timer := next_timer st; frames := frames st; wire := wire st;
     console := console st |}.

Definition set_reconnectTimeout (v : option positive) (st : world) : world :=
  {| wheel := wheel st; doc := doc st; ws := ws st;
     reconnectTimeout := v; sockets := sockets st;
     next_socket := next_socket st; timers := timers st;
     next_timer := next_timer st; frames := frames st; wire := wire st;
     console := console st |}.

Definition set_sockets (v : list socket) (n : positive) (st : world) : world :=
  {| wheel := wheel st; doc := doc st; ws := ws st;
     reconnectTimeout := reconnectTimeout st; sockets := v;
     next_socket := n; timers := timers st;
     next_timer := next_timer st; frames := frames st; wire := wire st;
     console := console st |}.

Definition set_timers (v : list timer) (n : positive) (st : world) : world :=
  {| wheel := wheel st; doc := doc st; ws := ws st;
     reconnectTimeout := reconnectTimeout st; sockets := sockets st;
     next_socket := next_socket st; timers := v;
     next_timer := n; frames := frames st; wire := wire st;
     console := console st |}.

Definition set_frames (v : list animation) (st : world) : world :=
  {| wheel := wheel st; doc := doc st; ws := ws st;
     reconnectTimeout := reconnectTimeout st; sockets := sockets st;
     next_socket := next_socket st; timers := timers st;
     next_timer := next_timer st; frames := v; wire := wire st;
     console := console st |}.

Definition set_wire (v : list (positive * text_frame)) (st : world) : world :=
  {| wheel := wheel st; doc := doc st; ws := ws st;
     reconnectTimeout := reconnectTimeout st; sockets := sockets st;
     next_socket := next_socket st; timers := timers st;
     next_timer := next_timer st; frames := frames st; wire := v;
     console := console st |}.

Definition print (entry : console_entry) (st : world) : world :=
  {| wheel := wheel st; doc := doc st; ws := ws st;
     reconnectTimeout := reconnectTimeout st; sockets := sockets st;
     next_socket := next_socket st; timers := timers st;
     next_timer := next_timer st; frames := frames st; wire := wire st;
     console := console st ++ [entry] |}.

(** *** Timers, animation frames, sockets *)

(** [setTimeout(callback, delay)]: the new handle and the new state. *)
Definition setTimeout (cb : callback) (delay : Z) (st : world) : positive * world :=
  let id := next_timer st in
  (id, set_timers (timers st ++ [{| timer_id := id; timer_delay := delay;
                                    timer_callback := cb |}])
                  (Pos.succ id) st).

(** [clearTimeout(id)] *)
Definition clearTimeout (id : positive) (st : world) : world :=
  set_timers (filter (fun t => negb (Pos.eqb (timer_id t) id)) (timers st))
             (next_timer st) st.

(** [requestAnimationFrame(animate)] *)
Definition requestAnimationFrame (a : animation) (st : world) : world :=
  set_frames (frames st ++ [a]) st.

Fixpoint socket_lookup (l : list socket) (id : positive) : option readyState :=
  match l with
  | [] => None
  | s :: rest =>
      if Pos.eqb (socket_id s) id then Some (socket_state s)
      else socket_lookup rest id
  end.

(** The socket [socket_lookup] finds, moved to state [rs]. *)
Fixpoint socket_update (id : positive) (rs : readyState) (l : list socket)
  : list socket :=
  match l with
  | [] => []
  | s :: rest =>
      if Pos.eqb (socket_id s) id
      then {| socket_id := id; socket_state := rs |} :: rest
      else s :: socket_update id rs rest
  end.

Definition is_open (rs : option readyState) : bool :=
  match rs with Some OPEN => true | _ => false end.

(** ** The main script: [send] *)

Definition WebSocket_readyState (st : world) : option readyState :=
  match ws st with
  | Some id => socket_lookup (sockets st) id
  | None => None
  end.

(** [ws && ws.readyState === WebSocket.OPEN] *)
Definition connected (st : world) : bool := is_open (WebSocket_readyState st).

Definition not_connected_warning : console_entry :=
  console_warn "WebSocket not connected, cannot send message".

(** [send(data)] *)
Definition send (data : value) (st : world) : world :=
  match ws st with
  | Some id =>
      if is_open (socket_lookup (sockets st) id)
      then set_wire (wire st ++ [(id, JSON_stringify data)]) st
      else print not_connected_warning st
  | None => print not_connected_warning st
  end.

(** ** [SpinningWheel] *)

Definition spinDuration : float := 4000%float.

(** [2 * Math.PI] *)
Definition two_pi : float := (2 * Math_PI)%float.

(** The state a [new SpinningWheel(...)] starts in. *)
Definition new_SpinningWheel : SpinningWheel :=
  {| items := []; currentRotation := 0%float; isSpinning := false;
     isShowingResult := false; hideTimeout := None; resultTimeout := None |}.

(** [setItems(items)] *)
Definition setItems (new_items : list value) (st : world) : world :=
  with_wheel (set_items new_items) st.

(** [isBusy()] *)
Definition isBusy (w : SpinningWheel) : bool :=
  isSpinning w || isShowingResult w.

(** [showResult(result)] *)
Definition showResult (result : value) (st : world) : world :=
  let st := with_doc (set_result_textContent result) st in
  let st := with_doc (set_result_hidden false) st in
  let st := match resultTimeout (wheel st) with
            | Some id => clearTimeout id st
            | None => st
            end in
  let '(id, st) := setTimeout result_fade 3000 st in
  with_wheel (set_resultTimeout (Some id)) st.

(** [hide()] *)
Definition hide (st : world) : world :=
  let st := match hideTimeout (wheel st) with
            | Some id => clearTimeout id st
            | None => st
            end in
  let '(id, st) := setTimeout hide_container 4000 st in
  with_wheel (set_hideTimeout (Some id)) st.

(** [reset()] *)
Definition reset (st : world) : world :=
  let st := match hideTimeout (wheel st) with
            | Some id => with_wheel (set_hideTimeout None) (clearTimeout id st)
            | None => st
            end in
  let st := match resultTimeout (wheel st) with
            | Some id => with_wheel (set_resultTimeout None) (clearTimeout id st)
            | None => st
            end in
  let st := with_doc (set_result_hidden true) st in
  let st := with_doc (set_result_fade_out false) st in
  let st := with_doc (set_result_textContent (VString "")) st in
  let st := with_wheel (set_isShowingResult false) st in
  with_doc (set_container_hidden false) st.

(** The code of [spinAndShow] after [await this.spin()]. [sendToBackend] is
    the main script's [send]. *)
Definition spinAndShow_resume (data : value) (result : value) (st : world) : world :=
  if truthy result then
    let st := showResult result st in
    let st := hide st in
    let action := get_optional_computed (get_optional data "actions") result in
    send (VObject [("type", VString "wheel_result");
                   ("result", result);
                   ("action", action)]) st
  else st.

(** The winner computation of [animate], on the wheel whose rotation has
    been normalised. *)
Definition sliceAngle (w : SpinningWheel) : float :=
  (two_pi / Binary64.of_nat (List.length (items w)))%float.

Definition normalizedRotation (w : SpinningWheel) : float :=
  Binary64.rem (two_pi - Binary64.rem (currentRotation w) two_pi)%float two_pi.

Definition winnerIndex (w : SpinningWheel) : float :=
  Binary64.Math_floor (normalizedRotation w / sliceAngle w)%float.

(** The three field writes of the last frame, in the order of the source,
    as the wheel after each of them. *)
Definition normalize_rotation (w : SpinningWheel) : SpinningWheel :=
  set_currentRotation (Binary64.rem (currentRotation w) two_pi) w.

Definition finish_trace (w : SpinningWheel) : list SpinningWheel :=
  let w1 := normalize_rotation w in
  let w2 := set_isShowingResult true w1 in
  let w3 := set_isSpinning false w2 in
  [w1; w2; w3].

Definition finish (w : SpinningWheel) : SpinningWheel := last (finish_trace w) w.

(** [this.items[winnerIndex]], read after the first of the three writes. *)
Definition winner (w : SpinningWheel) : value :=
  let w1 := normalize_rotation w in
  array_get (items w1) (winnerIndex w1).

(** One call of the closure [animate] at clock reading [now], on a
    platform whose [Math.pow] returns [platform_pow] where the language
    leaves the result open. *)
Definition animate (a : animation) (now : Z) (platform_pow : float) (st : world)
  : world :=
  let elapsed := (Binary64.of_Z now - Binary64.of_Z (startTime a))%float in
  let progress := Binary64.Math_min (elapsed / spinDuration)%float 1%float in
  let easeOut := (1 - Binary64.Math_pow3 platform_pow (1 - progress))%float in
  let st := with_wheel (set_currentRotation
                          (startRotation a + totalRotation a * easeOut)%float) st in
  if (progress <? 1)%float then requestAnimationFrame a st
  else
    let result := winner (wheel st) in
    let st := with_wheel finish st in
    spinAndShow_resume (wheelData a) result st.

(** What the platform supplies during a trigger: the two [Math.random()]
    draws, the two [Date.now()] readings of [spin] (the start time and the
    first, synchronous call of [animate]) and the result of [Math.pow] in
    that first call. *)
Record spin_inputs : Type := {
  random1 : float;
  random2 : float;
  now_start : Z;
  now_first : Z;
  pow_first : float
}.

(** [spin()], followed by the rest of its only caller [spinAndShow]. *)
Definition spin (data : value) (i : spin_inputs) (st : world) : world :=
  if isSpinning (wheel st) || (List.length (items (wheel st)) =? 0)%nat
  then spinAndShow_resume data VNull st
  else
    let st := with_wheel (set_isSpinning true) st in
    let st := with_doc (set_container_hidden false) st in
    let fullRotations := (3 + random1 i * 3)%float in
    let randomOffset := (random2 i * 2 * Math_PI)%float in
    let total := (fullRotations * 2 * Math_PI + randomOffset)%float in
    animate {| startTime := now_start i;
               startRotation := currentRotation (wheel st);
               totalRotation := total;
               wheelData := data |} (now_first i) (pow_first i) st.

Definition busy_warning : console_entry :=
  console_warn "Wheel is busy (spinning or showing result), ignoring new spin request".

(** [spinAndShow(wheelData)] *)
Definition spinAndShow (data : value) (i : spin_inputs) (st : world) : world :=
  if isBusy (wheel st) then print busy_warning st
  else spin data i (reset st).

(** ** The main script *)

Definition RECONNECT_INTERVAL : Z := 3000.

(** [connect()]. [constructor_throws] tells whether [new WebSocket(WS_URL)]
    throws; when it does not, the new socket is CONNECTING and carries the
    four handlers below. *)
Definition connect (constructor_throws : bool) (st : world) : world :=
  let st := print (console_log "Connecting to WebSocket...") st in
  if constructor_throws then
    let st := print (console_error "Failed to connect:") st in
    let '(id, st) := setTimeout reconnect_after_throw RECONNECT_INTERVAL st in
    set_reconnectTimeout (Some id) st
  else
    let id := next_socket st in
    let st := set_sockets (sockets st ++ [{| socket_id := id; socket_state := CONNECTING |}])
                          (Pos.succ id) st in
    set_ws (Some id) st.

(** [ws.onopen] *)
Definition onopen (st : world) : world :=
  let st := print (console_log "WebSocket connected") st in
  let st := match reconnectTimeout st with
            | Some id => set_reconnectTimeout None (clearTimeout id st)
            | None => st
            end in
  send (VObject [("type", VString "request_config")]) st.

(** [ws.onerror] *)
Definition onerror (st : world) : world :=
  print (console_error "WebSocket error:") st.

(** [ws.onclose] *)
Definition onclose (st : world) : world :=
  let st := print (console_log "WebSocket disconnected") st in
  let st := set_ws None st in
  let '(id, st) := setTimeout reconnect_after_close RECONNECT_INTERVAL st in
  set_reconnectTimeout (Some id) st.

(** [applyPositions(positions)], on the document. *)
Definition applyPositions (positions : value) (d : document) : completion document :=
  let! wheel_position := get positions "wheel" in
  if truthy wheel_position then
    let! x := get wheel_position "x" in
    let! y := get wheel_position "y" in
    let! s := get wheel_position "scale" in
    let scale := js_or s (VNumber (Fin 1)) in
    Normal (set_layout x y scale d)
  else Normal d.

(** [handleConfigUpdate(event)] *)
Definition handleConfigUpdate (event : value) (st : world) : completion world :=
  let! positions := get event "positions" in
  if truthy positions then
    let! d := applyPositions positions (doc st) in
    Normal (with_doc (fun _ => d) st)
  else Normal st.

(** [handleTriggerAction(event)] *)
Definition handleTriggerAction (event : value) (i : spin_inputs) (st : world)
  : completion world :=
  let! action_type := get event "action_type" in
  let! data := get event "data" in
  if is_string action_type "spin_wheel" then
    let! data_items := get data "items" in
    if truthy data_items && Array_isArray data_items
    then Normal (spinAndShow data i (setItems (elements_of data_items) st))
    else Normal st
  else Normal (print (console_warn "Unknown action type:") st).

(** [handleEvent(event)] *)
Definition handleEvent (event : value) (i : spin_inputs) (st : world)
  : completion world :=
  let! type := get event "type" in
  if is_string type "trigger_action" then handleTriggerAction event i st
  else if is_string type "config_update" then handleConfigUpdate event st
  else if is_string type "ping" then Normal st
  else Normal (print (console_warn "Unknown event type:") st).

(** [ws.onmessage]; [parsed] is what [JSON.parse(event.data)] returns, or
    [None] when it throws.  The handlers throw before they write, so the
    state the [catch] sees is the one after the log line. *)
Definition onmessage (parsed : option value) (i : spin_inputs) (st : world) : world :=
  match parsed with
  | None => print (console_error "Failed to parse message:") st
  | Some data =>
      let st := print (console_log "Received event:") st in
      match handleEvent data i st with
      | Normal st' => st'
      | Throw _ => print (console_error "Failed to parse message:") st
      end
  end.

(** The [beforeunload] listener. *)
Definition beforeunload (st : world) : world :=
  let st := match ws st with
            | Some id =>
                match socket_lookup (sockets st) id with
                | Some CLOSED | None => st
                | Some _ => set_sockets (socket_update id CLOSING (sockets st))
                                        (next_socket st) st
                end
            | None => st
            end in
  match reconnectTimeout st with
  | Some id => clearTimeout id st
  | None => st
  end.

(** The defaults of [resetPositions]. *)
Definition default_positions : value :=
  VObject [("wheel", VObject [("x", VNumber (Fin 50));
                              ("y", VNumber (Fin 50));
                              ("scale", VNumber (Fin 1))])].

(** [resetPositions()] *)
Definition resetPositions (st : world) : completion world :=
  let st := send (VObject [("type", VString "position_update");
                           ("element", VString "wheel");
                           ("x", VNumber (Fin 50));
                           ("y", VNumber (Fin 50));
                           ("scale", VNumber (Fin 1))]) st in
  let! d := applyPositions default_positions (doc st) in
  Normal (with_doc (fun _ => d) st).

(** *** The resize gesture *)

(** The variables [startResize] captured; [resizeElement] is the wheel
    container or [null].  Pointer coordinates are finite. *)
Record resize_state : Type := {
  resizeElement : bool;
  isResizing : bool;
  resizeStartScale : number;
  resizeStartX : Q;
  resizeStartY : Q
}.

Record MouseEvent : Type := {
  clientX : Q;
  clientY : Q
}.

(** The scale [resize] computes. *)
Definition resize_newScale (g : resize_state) (e : MouseEvent) : number :=
  let deltaX := clientX e - resizeStartX g in
  let deltaY := clientY e - resizeStartY g in
  let delta := Math_max (Fin deltaX) (Fin deltaY) in
  let scaleChange := ndiv delta (Fin 200) in
  let newScale := nadd (resizeStartScale g) scaleChange in
  Math_max (Fin (3 # 10)) (Math_min (Fin 3) newScale).

(** [resize(e)], on the document (the text of the scale indicator, which no
    script reads, is left out). *)
Definition resize (g : resize_state) (e : MouseEvent) (d : document) : document :=
  if negb (resizeElement g) || negb (isResizing g) then d
  else
    let newScale := VNumber (resize_newScale g e) in
    match container_transform d with
    | transform_translate_scale _ =>
        set_scale (transform_translate_scale newScale) newScale d
    | _ => set_scale (transform_scale newScale) newScale d
    end.

(** *** The drag gesture *)





(** ** The event loop *)

(** What the browser can run next: an event of a WebSocket object, a timer
    that is due, one animation frame callback (with the clock reading and
    the result of [Math.pow] in it), the page unloading, a click on the
    reset button.  Pointer gestures write the document and call [send];
    they are not events of this loop. *)
Inductive event : Type :=
  | ev_open (id : positive)
  | ev_message (id : positive) (parsed : option value) (i : spin_inputs)
  | ev_error (id : positive)
  | ev_close (id : positive)
  | ev_timeout (id : positive) (constructor_throws : bool)
  | ev_animation_frame (now : Z) (platform_pow : float)
  | ev_beforeunload
  | ev_reset_click.

Fixpoint timer_lookup (l : list timer) (id : positive) : option timer :=
  match l with
  | [] => None
  | t :: rest => if Pos.eqb (timer_id t) id then Some t else timer_lookup rest id
  end.

(** The body of each closure given to [setTimeout]. *)
Definition run_callback (cb : callback) (constructor_throws : bool) (st : world)
  : world :=
  match cb with
  | reconnect_after_close =>
      connect constructor_throws (print (console_log "Attempting to reconnect...") st)
  | reconnect_after_throw => connect constructor_throws st
  | result_fade =>
      let st := with_doc (set_result_fade_out true) st in
      snd (setTimeout result_clear 500 st)
  | result_clear =>
      let st := with_doc (set_result_hidden true) st in
      let st := with_doc (set_result_fade_out false) st in
      with_wheel (set_isShowingResult false) st
  | hide_container => with_doc (set_container_hidden true) st
  end.

(** One turn of the loop; [None] when the browser cannot deliver the event
    in this state. *)
Definition step (ev : event) (st : world) : option world :=
  match ev with
  | ev_open id =>
      match socket_lookup (sockets st) id with
      | Some CONNECTING =>
          Some (onopen (set_sockets (socket_update id OPEN (sockets st))
                                    (next_socket st) st))
      | _ => None
      end
  | ev_message id parsed i =>
      match socket_lookup (sockets st) id with
      | Some OPEN => Some (onmessage parsed i st)
      | _ => None
      end
  | ev_error id =>
      match socket_lookup (sockets st) id with
      | Some CLOSED | None => None
      | Some _ => Some (onerror st)
      end
  | ev_close id =>
      match socket_lookup (sockets st) id with
      | Some CLOSED | None => None
      | Some _ =>
          Some (onclose (set_sockets (socket_update id CLOSED (sockets st))
                                     (next_socket st) st))
      end
  | ev_timeout id constructor_throws =>
      match timer_lookup (timers st) id with
      | Some t =>
          Some (run_callback (timer_callback t) constructor_throws
                             (clearTimeout id st))
      | None => None
      end
  | ev_animation_frame now platform_pow =>
      match frames st with
      | a :: rest => Some (animate a now platform_pow (set_frames rest st))
      | [] => None
      end
  | ev_beforeunload => Some (beforeunload st)
  | ev_reset_click =>
      match resetPositions st with
      | Normal st' => Some st'
      | Throw _ => None
      end
  end.

(** The state after the [DOMContentLoaded] listener, for a page whose
    document is [d]. *)
Definition DOMContentLoaded (d : document) (constructor_throws : bool) : world :=
  connect constructor_throws
    {| wheel := new_SpinningWheel; doc := d; ws := None;
       reconnectTimeout := None; sockets := []; next_socket := 1%positive;
       timers := []; next_timer := 1%positive; frames := []; wire := [];
       console := [console_log "Yambot Overlay Initialized"] |}.

Inductive reachable : world -> Prop :=
  | reachable_init d constructor_throws :
      reachable (DOMContentLoaded d constructor_throws)
  | reachable_step st ev st' :
      reachable st -> step ev st = Some st' -> reachable st'.

(** Running a list of events from a state. *)
Fixpoint run (evs : list event) (st : world) : option world :=
  match evs with
  | [] => Some st
  | ev :: rest =>
      match step ev st with
      | Some st' => run rest st'
      | None => None
      end
  end.

(** ** Observations and reference definitions *)

(** The [type] field a text frame was built with. *)
Definition frame_type (f : positive * text_frame) : value :=
  match snd f with JSON_stringify data => get_optional data "type" end.

(** The [wheel_result] messages handed to the socket so far. *)
Definition wheel_results (st : world) : list (positive * text_frame) :=
  filter (fun f => is_string (frame_type f) "wheel_result") (wire st).

(** The scale a script last applied to the wheel container lies in
    [0.3, 3.0]. *)
Definition scale_in_range (applied : option value) : bool :=
  match applied with
  | Some (VNumber (Fin q)) => Qle_bool (3 # 10) q && Qle_bool q 3
  | _ => false
  end.

(** Stated from the specification: [clamp(v, lo, hi)]. *)
Definition clamp (v lo hi : number) : number :=
  if nlt v lo then lo else if nlt hi v then hi else v.





(** The pending timers that would call [connect]. *)
Definition is_reconnect (t : timer) : bool :=
  match timer_callback t with
  | reconnect_after_close | reconnect_after_throw => true
  | _ => false
  end.

Definition pending_reconnects (st : world) : list timer :=
  filter is_reconnect (timers st).

(** The pending timers of the result display. *)
Definition is_result_timer (t : timer) : bool :=
  match timer_callback t with
  | result_fade | result_clear => true
  | _ => false
  end.

Definition pending_result_timers (st : world) : list timer :=
  filter is_result_timer (timers st).

(** The sockets that can still fire [close]. *)
Definition not_closed (s : socket) : bool :=
  match socket_state s with CLOSED => false | _ => true end.

Definition live_sockets (st : world) : list socket :=
  filter not_closed (sockets st).

(** A spin has been accepted and its result display has not ended: a frame
    of the animation or a timer of the result display is pending. *)
Definition result_pending (st : world) : Prop :=
  frames st <> [] \/ pending_result_timers st <> [].

(** Each socket closes once and each reconnect timer opens one socket: the
    sockets that can still close and the pending reconnect timers are at
    most one in all. *)
Definition transport_invariant (st : world) : Prop :=
  (List.length (live_sockets st) + List.length (pending_reconnects st) <= 1)%nat.

(** At most one animation is in flight, and then the wheel is spinning and
    no result timer is pending; at most one result timer is pending, and
    then the wheel is showing a result. *)
Definition engine_invariant (st : world) : Prop :=
  (List.length (frames st) <= 1)%nat
  /\ (frames st <> [] ->
      isSpinning (wheel st) = true /\ pending_result_timers st = [])
  /\ (List.length (pending_result_timers st) <= 1)%nat
  /\ (pending_result_timers st <> [] -> isShowingResult (wheel st) = true).

(** [st'] has the sockets of [st] and no more reconnect timers. *)
Definition quiet_transport (st st' : world) : Prop :=
  sockets st' = sockets st
  /\ (List.length (pending_reconnects st') <= List.length (pending_reconnects st))%nat.

(** [st'] has the wheel flags and the frames of [st] and no more result
    timers. *)
Definition quiet_engine (st st' : world) : Prop :=
  isSpinning (wheel st') = isSpinning (wheel st)
  /\ isShowingResult (wheel st') = isShowingResult (wheel st)
  /\ frames st' = frames st
  /\ (List.length (pending_result_timers st') <= List.length (pending_result_timers st))%nat.

(** *** Sample inputs *)

Definition page : document :=
  {| container_hidden := true; container_left := None; container_top := None;
     container_transform := transform_empty; container_dataset_scale := None;
     result_textContent := VString ""; result_hidden := true;
     result_fade_out := false |}.

Definition spin_wheel_event (labels : list string) (actions : value) : value :=
  VObject [("type", VString "trigger_action");
           ("action_type", VString "spin_wheel");
           ("data", VObject [("items", VArray (map VString labels));
                             ("actions", actions)])].

Definition config_update_event (x y scale : value) : value :=
  VObject [("type", VString "config_update");
           ("positions", VObject [("wheel", VObject [("x", x); ("y", y);
                                                     ("scale", scale)])])].

Definition sample_inputs : spin_inputs :=
  {| random1 := 0.5%float; random2 := 0.25%float; now_start := 1000;
     now_first := 1000; pow_first := 1%float |}.

Definition sample_actions : value :=
  VObject [("A", VObject [("cmd", VNumber (Fin 1))])].

(** The page loaded and its socket open. *)
Definition connected_page : world :=
  match run [ev_open 1] (DOMContentLoaded page false) with
  | Some st => st
  | None => DOMContentLoaded page false
  end.

Definition spinning_page : world :=
  match step (ev_message 1 (Some (spin_wheel_event ["A"; "B"; "C"] sample_actions))
                         sample_inputs) connected_page with
  | Some st => st
  | None => connected_page
  end.


(** The page after that spin has completed: the result is on display. *)
Definition result_page : world :=
  match step (ev_animation_frame 5000 0%float) spinning_page with
  | Some st => st
  | None => spinning_page
  end.







Definition sample_gesture : resize_state :=
  {| resizeElement := true; isResizing := true; resizeStartScale := Fin 1;
     resizeStartX := 0; resizeStartY := 0 |}.

(** * Properties *)

(** ** Transport: [send] *)

Lemma send_closed_channel (data : value) (st : world) :
  connected st = false -> send data st = print not_connected_warning st.
Proof.
  unfold connected, WebSocket_readyState, send.
  destruct (ws st) as [id|]; [|reflexivity].
  intros ->. reflexivity.
Qed.

Lemma send_open_channel (data : value) (st : world) :
  connected st = true ->
  exists id, ws st = Some id
    /\ send data st = set_wire (wire st ++ [(id, JSON_stringify data)]) st.
Proof.
  unfold connected, WebSocket_readyState, send.
  destruct (ws st) as [id|]; [|discriminate].
  intros ->. exists id. split; reflexivity.
Qed.

(** C7. A message given to [send] while the channel is not OPEN is dropped:
    the only change of the state is the warning on the console, so nothing
    reaches the socket and nothing is kept for later (no timer, no frame).
    While the channel is OPEN, [send] hands the JSON text of the message to
    the socket and changes nothing else. *)
Theorem send_drops_unless_connected (data : value) (st : world) :
  (connected st = false ->
     send data st = print not_connected_warning st
     /\ wire (send data st) = wire st
     /\ timers (send data st) = timers st
     /\ frames (send data st) = frames st
     /\ console (send data st) = console st ++ [not_connected_warning])
  /\ (connected st = true ->
        exists id, ws st = Some id
          /\ send data st = set_wire (wire st ++ [(id, JSON_stringify data)]) st
          /\ wire (send data st) = wire st ++ [(id, JSON_stringify data)]
          /\ console (send data st) = console st).
Proof.
  split; intros H.
  - rewrite (send_closed_channel _ _ H). repeat split.
  - destruct (send_open_channel data _ H) as (id & Hws & ->).
    exists id. repeat split. exact Hws.
Qed.

Lemma send_drops_unless_connected_witness :
  (send (VString "hello") (DOMContentLoaded page false)
     = print not_connected_warning (DOMContentLoaded page false))
  /\ wire (send (VString "hello") connected_page)
       = wire connected_page ++ [(1%positive, JSON_stringify (VString "hello"))].
Proof.
  split.
  - apply (proj1 (send_drops_unless_connected (VString "hello")
                    (DOMContentLoaded page false))).
    reflexivity.
  - destruct (proj2 (send_drops_unless_connected (VString "hello") connected_page)
                eq_refl) as (id & Hws & _ & Hwire & _).
    rewrite Hwire. injection Hws as <-. reflexivity.
Defined.

(** ** Layout: [applyPositions], [resize], [resetPositions] *)

Lemma applyPositions_wheel (positions wheel_position : value) (d : document) :
  get positions "wheel" = Normal wheel_position ->
  truthy wheel_position = true ->
  exists x y s,
    get wheel_position "x" = Normal x
    /\ get wheel_position "y" = Normal y
    /\ get wheel_position "scale" = Normal s
    /\ applyPositions positions d
         = Normal (set_layout x y (js_or s (VNumber (Fin 1))) d).
Proof.
  intros Hw Ht. unfold applyPositions. rewrite Hw. cbn [bind]. rewrite Ht.
  destruct wheel_position; try discriminate; cbn; eauto 10.
Qed.

(** C10. A [config_update] whose wheel position carries a falsy scale (a
    missing field, [null], an empty string, NaN, and also the number 0) is
    applied with scale 1: the falsy value is replaced by the default, it
    is not raised to the lower bound 0.3. *)
Theorem config_update_falsy_scale_is_one
    (event positions wheel_position s : value) (st : world) :
  get event "positions" = Normal positions ->
  truthy positions = true ->
  get positions "wheel" = Normal wheel_position ->
  truthy wheel_position = true ->
  get wheel_position "scale" = Normal s ->
  truthy s = false ->
  exists st',
    handleConfigUpdate event st = Normal st'
    /\ container_dataset_scale (doc st') = Some (VNumber (Fin 1))
    /\ container_transform (doc st') = transform_translate_scale (VNumber (Fin 1))
    /\ truthy (VNumber (Fin 0)) = false
    /\ truthy VUndefined = false.
Proof.
  intros Hp Htp Hw Htw Hs Hfalsy.
  destruct (applyPositions_wheel positions wheel_position (doc st) Hw Htw)
    as (x & y & s' & _ & _ & Hs' & Happly).
  rewrite Hs in Hs'. injection Hs' as <-.
  unfold handleConfigUpdate. rewrite Hp. cbn [bind]. rewrite Htp, Happly.
  cbn [bind]. unfold js_or. rewrite Hfalsy.
  eexists. split; [reflexivity|]. repeat split.
Qed.

Lemma config_update_falsy_scale_is_one_witness :
  exists st',
    handleConfigUpdate
      (config_update_event (VNumber (Fin 40)) (VNumber (Fin 60)) (VNumber (Fin 0)))
      connected_page = Normal st'
    /\ container_dataset_scale (doc st') = Some (VNumber (Fin 1)).
Proof.
  destruct (config_update_falsy_scale_is_one
              (config_update_event (VNumber (Fin 40)) (VNumber (Fin 60)) (VNumber (Fin 0)))
              (VObject [("wheel", VObject [("x", VNumber (Fin 40));
                                           ("y", VNumber (Fin 60));
                                           ("scale", VNumber (Fin 0))])])
              (VObject [("x", VNumber (Fin 40)); ("y", VNumber (Fin 60));
                        ("scale", VNumber (Fin 0))])
              (VNumber (Fin 0)) connected_page
              eq_refl eq_refl eq_refl eq_refl eq_refl eq_refl)
    as (st' & H1 & H2 & _).
  exists st'. split; assumption.
Defined.

Ltac Qle_bool_cases :=
  repeat match goal with
         | H : Qle_bool _ _ = true |- _ => apply Qle_bool_iff in H
         | H : Qle_bool _ _ = false |- _ =>
             apply not_true_iff_false in H; rewrite Qle_bool_iff in H
         end.

Lemma Math_clamp (v : number) :
  same_number (Math_max (Fin (3 # 10)) (Math_min (Fin 3) v))
              (clamp v (Fin (3 # 10)) (Fin 3)).
Proof.
  unfold clamp, Math_max, Math_min, nlt.
  destruct v as [| | |q];
    [exact I | vm_compute; reflexivity | vm_compute; reflexivity |].
  destruct (Qle_bool 3 q) eqn:H3; destruct (Qle_bool (3 # 10) q) eqn:H03;
    destruct (Qle_bool q 3) eqn:Hq; destruct (Qle_bool q (3 # 10)) eqn:Hq';
    cbn; rewrite ?H3, ?H03, ?Hq, ?Hq'; cbn; Qle_bool_cases; lra.
Qed.

Lemma Math_clamp_in_range (v : number) :
  v <> NaN ->
  scale_in_range (Some (VNumber (Math_max (Fin (3 # 10)) (Math_min (Fin 3) v))))
  = true.
Proof.
  intros Hv. unfold Math_max, Math_min, nlt.
  destruct v as [| | |q]; [congruence | reflexivity | reflexivity |].
  destruct (Qle_bool 3 q) eqn:H3; cbn; [reflexivity|].
  destruct (Qle_bool q (3 # 10)) eqn:Hq'; cbn; [reflexivity|].
  apply andb_true_iff. split; apply Qle_bool_iff; Qle_bool_cases; lra.
Qed.

Lemma resize_applies_newScale (g : resize_state) (e : MouseEvent) (d : document) :
  resizeElement g = true -> isResizing g = true ->
  container_dataset_scale (resize g e d) = Some (VNumber (resize_newScale g e)).
Proof.
  intros H1 H2. unfold resize. rewrite H1, H2. cbn.
  destruct (container_transform d); reflexivity.
Qed.

(** C8. A resize move from starting scale [s] with pointer deltas [dx], [dy]
    applies the scale [clamp(s + max(dx, dy) / 200, 0.3, 3.0)]. From scale 1,
    a delta of 1000 pixels gives 3 and a delta of -1000 pixels gives 0.3. *)
Theorem resize_scale_is_clamped_sum (g : resize_state) (e : MouseEvent) (d : document) :
  resizeElement g = true ->
  isResizing g = true ->
  let s := resizeStartScale g in
  let dx := clientX e - resizeStartX g in
  let dy := clientY e - resizeStartY g in
  (exists applied,
      container_dataset_scale (resize g e d) = Some (VNumber applied)
      /\ container_transform (resize g e d)
          = match container_transform d with
            | transform_translate_scale _ => transform_translate_scale (VNumber applied)
            | _ => transform_scale (VNumber applied)
            end
      /\ same_number applied
           (clamp (nadd s (ndiv (Math_max (Fin dx) (Fin dy)) (Fin 200)))
                  (Fin (3 # 10)) (Fin 3)))
  /\ resize_newScale sample_gesture {| clientX := 1000; clientY := 0 |} = Fin 3
  /\ resize_newScale sample_gesture {| clientX := -1000; clientY := -1000 |}
       = Fin (3 # 10).
Proof.
  intros H1 H2 s dx dy. split; [|split; reflexivity].
  exists (resize_newScale g e). split; [|split].
  - apply resize_applies_newScale; assumption.
  - unfold resize. rewrite H1, H2. cbn.
    destruct (container_transform d); reflexivity.
  - apply Math_clamp.
Qed.

Lemma resize_scale_is_clamped_sum_witness :
  exists applied,
    container_dataset_scale
      (resize sample_gesture {| clientX := 1000; clientY := 0 |} page)
    = Some (VNumber applied)
    /\ same_number applied (Fin 3).
Proof.
  destruct (resize_scale_is_clamped_sum sample_gesture
              {| clientX := 1000; clientY := 0 |} page eq_refl eq_refl)
    as ((applied & H & _ & Hsame) & _).
  exists applied. split; [exact H|].
  exact Hsame.
Defined.

Lemma resetPositions_layout (st : world) :
  exists st',
    resetPositions st = Normal st'
    /\ container_dataset_scale (doc st') = Some (VNumber (Fin 1))
    /\ container_transform (doc st') = transform_translate_scale (VNumber (Fin 1))
    /\ container_left (doc st') = Some (VNumber (Fin 50))
    /\ container_top (doc st') = Some (VNumber (Fin 50)).
Proof.
  unfold resetPositions. cbn. eexists. split; [reflexivity|]. repeat split.
Qed.

Lemma handleConfigUpdate_layout
    (event positions wheel_position s : value) (st : world) :
  get event "positions" = Normal positions ->
  truthy positions = true ->
  get positions "wheel" = Normal wheel_position ->
  truthy wheel_position = true ->
  get wheel_position "scale" = Normal s ->
  exists st',
    handleConfigUpdate event st = Normal st'
    /\ container_dataset_scale (doc st') = Some (js_or s (VNumber (Fin 1)))
    /\ container_transform (doc st')
        = transform_translate_scale (js_or s (VNumber (Fin 1))).
Proof.
  intros Hp Htp Hw Htw Hs.
  destruct (applyPositions_wheel positions wheel_position (doc st) Hw Htw)
    as (x & y & s' & _ & _ & Hs' & Happly).
  rewrite Hs in Hs'. injection Hs' as <-.
  unfold handleConfigUpdate. rewrite Hp. cbn [bind]. rewrite Htp, Happly.
  cbn [bind]. eexists. split; [reflexivity|]. split; reflexivity.
Qed.

(** C2, as the code has it. A resize move from a starting scale that is a
    number (not NaN) applies a scale within [0.3, 3.0], and a reset applies
    scale 1. A [config_update] applies the scale the server sent, or 1 when
    that is falsy, without clamping: the applied scale is within
    [0.3, 3.0] exactly when that value is. *)
Theorem scale_range_by_mutation_path
    (g : resize_state) (e : MouseEvent) (st : world)
    (event positions wheel_position s : value) :
  (resizeElement g = true -> isResizing g = true -> resizeStartScale g <> NaN ->
     scale_in_range (container_dataset_scale (resize g e (doc st))) = true)
  /\ (exists st',
        resetPositions st = Normal st'
        /\ container_dataset_scale (doc st') = Some (VNumber (Fin 1))
        /\ scale_in_range (container_dataset_scale (doc st')) = true)
  /\ (get event "positions" = Normal positions ->
      truthy positions = true ->
      get positions "wheel" = Normal wheel_position ->
      truthy wheel_position = true ->
      get wheel_position "scale" = Normal s ->
      exists st',
        handleConfigUpdate event st = Normal st'
        /\ container_dataset_scale (doc st') = Some (js_or s (VNumber (Fin 1)))
        /\ scale_in_range (container_dataset_scale (doc st'))
            = scale_in_range (Some (js_or s (VNumber (Fin 1))))).
Proof.
  split; [|split].
  - intros H1 H2 Hs.
    rewrite (resize_applies_newScale g e (doc st) H1 H2).
    unfold resize_newScale. apply Math_clamp_in_range.
    destruct (resizeStartScale g); [congruence | | |];
      unfold Math_max, ndiv, nlt; cbn;
      destruct (negb _); cbn; discriminate.
  - destruct (resetPositions_layout st) as (st' & H & Hs & _).
    exists st'. rewrite Hs. repeat split. exact H.
  - intros Hp Htp Hw Htw Hs.
    destruct (handleConfigUpdate_layout event positions wheel_position s st
                Hp Htp Hw Htw Hs) as (st' & H & Hd & _).
    exists st'. rewrite Hd. repeat split. exact H.
Qed.

Lemma scale_range_by_mutation_path_witness :
  scale_in_range
    (container_dataset_scale
       (resize sample_gesture {| clientX := 1000; clientY := 0 |}
               (doc connected_page))) = true
  /\ exists st',
       handleConfigUpdate
         (config_update_event (VNumber (Fin 40)) (VNumber (Fin 60)) (VNumber (Fin 2)))
         connected_page = Normal st'
       /\ container_dataset_scale (doc st') = Some (VNumber (Fin 2)).
Proof.
  pose proof (scale_range_by_mutation_path sample_gesture
                {| clientX := 1000; clientY := 0 |} connected_page
                (config_update_event (VNumber (Fin 40)) (VNumber (Fin 60)) (VNumber (Fin 2)))
                (VObject [("wheel", VObject [("x", VNumber (Fin 40));
                                             ("y", VNumber (Fin 60));
                                             ("scale", VNumber (Fin 2))])])
                (VObject [("x", VNumber (Fin 40)); ("y", VNumber (Fin 60));
                          ("scale", VNumber (Fin 2))])
                (VNumber (Fin 2))) as (Hresize & _ & Hconfig).
  split.
  - apply Hresize; [reflexivity | reflexivity | discriminate].
  - destruct (Hconfig eq_refl eq_refl eq_refl eq_refl eq_refl) as (st' & H & Hd & _).
    exists st'. split; [exact H | exact Hd].
Defined.

(** C2, as stated, fails: a [config_update] with scale 5 is applied with
    scale 5. *)
Lemma config_update_scale_is_not_clamped :
  exists st',
    handleConfigUpdate
      (config_update_event (VNumber (Fin 50)) (VNumber (Fin 50)) (VNumber (Fin 5)))
      connected_page = Normal st'
    /\ container_dataset_scale (doc st') = Some (VNumber (Fin 5))
    /\ container_transform (doc st') = transform_translate_scale (VNumber (Fin 5))
    /\ scale_in_range (container_dataset_scale (doc st')) = false.
Proof.
  eexists. split; [reflexivity|]. repeat split.
Qed.

(** ** Spin engine: triggers *)

Lemma reset_wheel (st : world) :
  items (wheel (reset st)) = items (wheel st)
  /\ currentRotation (wheel (reset st)) = currentRotation (wheel st)
  /\ isSpinning (wheel (reset st)) = isSpinning (wheel st)
  /\ isShowingResult (wheel (reset st)) = false
  /\ hideTimeout (wheel (reset st)) = None
  /\ resultTimeout (wheel (reset st)) = None.
Proof.
  unfold reset.
  destruct (hideTimeout (wheel st)) as [h|] eqn:Hh; cbn;
    destruct (resultTimeout (wheel st)) as [r|] eqn:Hr; cbn;
    rewrite ?Hh, ?Hr; repeat split.
Qed.

Lemma reset_world (st : world) :
  frames (reset st) = frames st
  /\ wire (reset st) = wire st
  /\ ws (reset st) = ws st
  /\ sockets (reset st) = sockets st
  /\ console (reset st) = console st.
Proof.
  unfold reset.
  destruct (hideTimeout (wheel st)) as [h|] eqn:Hh; cbn;
    destruct (resultTimeout (wheel st)) as [r|] eqn:Hr; cbn;
    repeat split.
Qed.

Lemma spin_empty (data : value) (i : spin_inputs) (st : world) :
  items (wheel st) = [] ->
  spin data i st = spinAndShow_resume data VNull st.
Proof.
  intros H. unfold spin. rewrite H. cbn. rewrite orb_true_r. reflexivity.
Qed.

Lemma busy_trigger_effect
    (event data : value) (elements : list value) (i : spin_inputs) (st : world) :
  isBusy (wheel st) = true ->
  get event "action_type" = Normal (VString "spin_wheel") ->
  get event "data" = Normal data ->
  get data "items" = Normal (VArray elements) ->
  handleTriggerAction event i st
  = Normal (print busy_warning (setItems elements st)).
Proof.
  intros Hbusy Ha Hd Hi. unfold handleTriggerAction.
  rewrite Ha, Hd. cbn [bind is_string String.eqb Ascii.eqb Bool.eqb].
  rewrite Hi. cbn [bind truthy Array_isArray andb elements_of].
  unfold spinAndShow.
  change (isBusy (wheel (setItems elements st))) with (isBusy (wheel st)).
  rewrite Hbusy. reflexivity.
Qed.

(** C9. A [spin_wheel] trigger whose [data.items] is the empty list passes
    the dispatcher's list check and replaces the item set, but starts no
    spin and emits no message: [isSpinning] keeps its value, no animation
    frame is requested and nothing is handed to the socket. [spin] returns
    [null] on an empty item set before it writes [isSpinning], and the code
    after the [await] does nothing for a [null] result. *)
Theorem empty_items_trigger_starts_nothing
    (event data : value) (i : spin_inputs) (st : world) :
  get event "type" = Normal (VString "trigger_action") ->
  get event "action_type" = Normal (VString "spin_wheel") ->
  get event "data" = Normal data ->
  get data "items" = Normal (VArray []) ->
  (exists st',
      handleEvent event i st = Normal st'
      /\ items (wheel st') = []
      /\ isSpinning (wheel st') = isSpinning (wheel st)
      /\ frames st' = frames st
      /\ wire st' = wire st)
  /\ (forall st0, items (wheel st0) = [] ->
        spin data i st0 = spinAndShow_resume data VNull st0)
  /\ (forall st0, spinAndShow_resume data VNull st0 = st0).
Proof.
  intros Ht Ha Hd Hi. split; [|split].
  - unfold handleEvent. rewrite Ht.
    cbn [bind is_string String.eqb Ascii.eqb Bool.eqb].
    unfold handleTriggerAction.
    rewrite Ha, Hd. cbn [bind is_string String.eqb Ascii.eqb Bool.eqb].
    rewrite Hi. cbn [bind truthy Array_isArray andb elements_of].
    eexists. split; [reflexivity|].
    unfold spinAndShow.
    destruct (isBusy (wheel (setItems [] st))) eqn:Hbusy.
    + repeat split.
    + destruct (reset_wheel (setItems [] st)) as (Hitems & _ & Hspin & _).
      destruct (reset_world (setItems [] st)) as (Hframes & Hwire & _).
      rewrite spin_empty by (rewrite Hitems; reflexivity).
      cbn [spinAndShow_resume truthy].
      rewrite Hitems, Hspin, Hframes, Hwire. repeat split.
  - intros st0. apply spin_empty.
  - reflexivity.
Qed.

Lemma empty_items_trigger_starts_nothing_witness :
  exists st',
    handleEvent (spin_wheel_event [] sample_actions) sample_inputs connected_page
    = Normal st'
    /\ items (wheel st') = []
    /\ isSpinning (wheel st') = false
    /\ frames st' = []
    /\ wire st' = wire connected_page.
Proof.
  destruct (empty_items_trigger_starts_nothing
              (spin_wheel_event [] sample_actions)
              (VObject [("items", VArray []); ("actions", sample_actions)])
              sample_inputs connected_page eq_refl eq_refl eq_refl eq_refl)
    as ((st' & H & Hitems & Hspin & Hframes & Hwire) & _).
  exists st'. repeat split; assumption.
Defined.

Lemma spinning_page_reachable : reachable spinning_page.
Proof.
  apply (reachable_step connected_page
           (ev_message 1 (Some (spin_wheel_event ["A"; "B"; "C"] sample_actions))
                       sample_inputs)).
  - apply (reachable_step (DOMContentLoaded page false) (ev_open 1)).
    + apply reachable_init.
    + vm_compute. reflexivity.
  - vm_compute. reflexivity.
Qed.

(** C1, at a failing input. While the wheel spins over ["A"; "B"; "C"], a
    second [spin_wheel] trigger with items ["X"] is refused by the busy
    guard: rotation, flags, timer handles, pending timers, pending frames
    and the socket's frames stay as they were. The item set does not: it
    is ["X"] afterwards, because the dispatcher calls [setItems] before
    the guard of [spinAndShow] runs. *)
Theorem busy_trigger_replaces_items :
  reachable spinning_page
  /\ isBusy (wheel spinning_page) = true
  /\ items (wheel spinning_page) = [VString "A"; VString "B"; VString "C"]
  /\ exists st',
       step (ev_message 1 (Some (spin_wheel_event ["X"] VUndefined)) sample_inputs)
            spinning_page = Some st'
       /\ items (wheel st') = [VString "X"]
       /\ currentRotation (wheel st') = currentRotation (wheel spinning_page)
       /\ isSpinning (wheel st') = isSpinning (wheel spinning_page)
       /\ isShowingResult (wheel st') = isShowingResult (wheel spinning_page)
       /\ hideTimeout (wheel st') = hideTimeout (wheel spinning_page)
       /\ resultTimeout (wheel st') = resultTimeout (wheel spinning_page)
       /\ timers st' = timers spinning_page
       /\ frames st' = frames spinning_page
       /\ wire st' = wire spinning_page.
Proof.
  split; [exact spinning_page_reachable|].
  split; [reflexivity|]. split; [reflexivity|].
  eexists. split; [reflexivity|]. repeat split.
Qed.



(** What the code after the [await] hands to [send] for a truthy winner. *)
Lemma spinAndShow_resume_truthy (data result : value) (st : world) :
  truthy result = true ->
  spinAndShow_resume data result st
  = send (VObject [("type", VString "wheel_result");
                   ("result", result);
                   ("action", get_optional_computed (get_optional data "actions") result)])
         (hide (showResult result st)).
Proof.
  intros H. unfold spinAndShow_resume. rewrite H. reflexivity.
Qed.


(** C4, at failing inputs. A trigger with the one item [""] is accepted and
    its spin completes with the winner [""], but the code after the [await]
    tests the label for truthiness: no [wheel_result] is sent, no timer is
    set, and [isShowingResult] stays true. And when a trigger that the busy
    guard refuses has replaced the items (see C1), the one [wheel_result]
    of the spin in flight names an item of the refused trigger. *)
Theorem empty_label_spin_sends_no_result :
  (exists st,
      run [ev_message 1 (Some (spin_wheel_event [""] VUndefined)) sample_inputs;
           ev_animation_frame 5000 0%float] connected_page = Some st
      /\ wheel_results st = []
      /\ isSpinning (wheel st) = false
      /\ isShowingResult (wheel st) = true
      /\ frames st = []
      /\ timers st = [])
  /\ (exists st,
        run [ev_message 1 (Some (spin_wheel_event ["A"; "B"; "C"] sample_actions))
                        sample_inputs;
             ev_message 1 (Some (spin_wheel_event ["X"] VUndefined)) sample_inputs;
             ev_animation_frame 5000 0%float] connected_page = Some st
        /\ wheel_results st
           = [(1%positive,
               JSON_stringify (VObject [("type", VString "wheel_result");
                                        ("result", VString "X");
                                        ("action", VUndefined)]))]).
Proof.
  split; eexists; (split; [vm_compute; reflexivity|]); repeat split.
Qed.

(** ** Spin engine: the winner *)












(** *** Positive quotients

    The division of the source rounds; that the slice angle it computes is
    a positive number is read off the rounding itself. *)

Section Rounding.
Local Open Scope Z_scope.















End Rounding.





(** ** Timers and sockets *)

Lemma filter_filter_length {A : Type} (p q : A -> bool) (l : list A) :
  (List.length (filter p (filter q l)) <= List.length (filter p l))%nat.
Proof.
  induction l as [|x l IH]; cbn; [lia|].
  destruct (q x), (p x) eqn:Hp; cbn; rewrite ?Hp; cbn; lia.
Qed.

Lemma filter_drops_one {A : Type} (p q : A -> bool) (l : list A) (x : A) :
  In x l -> p x = true -> q x = false ->
  (S (List.length (filter p (filter q l))) <= List.length (filter p l))%nat.
Proof.
  intros Hin Hp Hq. induction l as [|y l IH]; [contradiction|].
  destruct Hin as [->|Hin]; cbn.
  - rewrite Hq, Hp. cbn. pose proof (filter_filter_length p q l). lia.
  - specialize (IH Hin). destruct (q y), (p y) eqn:Hpy; cbn; rewrite ?Hpy; cbn; lia.
Qed.

Lemma timer_lookup_found (l : list timer) (id : positive) (t : timer) :
  timer_lookup l id = Some t -> In t l /\ Pos.eqb (timer_id t) id = true.
Proof.
  induction l as [|x l IH]; cbn; [discriminate|].
  destruct (Pos.eqb (timer_id x) id) eqn:Hx.
  - intros [= <-]. split; [left; reflexivity | exact Hx].
  - intros H. destruct (IH H) as (Hin & Hid). split; [right; exact Hin | exact Hid].
Qed.

Lemma socket_update_still_live (l : list socket) (id : positive) (rs rs' : readyState) :
  socket_lookup l id = Some rs -> rs <> CLOSED -> rs' <> CLOSED ->
  List.length (filter not_closed (socket_update id rs' l))
  = List.length (filter not_closed l).
Proof.
  intros Hl Hrs Hrs'. induction l as [|s l IH]; cbn in *; [discriminate|].
  destruct (Pos.eqb (socket_id s) id) eqn:Hs.
  - injection Hl as Hl. cbn [filter]. unfold not_closed.
    cbn [socket_state]. rewrite Hl.
    destruct rs, rs'; try congruence; reflexivity.
  - cbn. destruct (not_closed s); cbn; rewrite (IH Hl); reflexivity.
Qed.

Lemma socket_update_closes_one (l : list socket) (id : positive) (rs : readyState) :
  socket_lookup l id = Some rs -> rs <> CLOSED ->
  S (List.length (filter not_closed (socket_update id CLOSED l)))
  = List.length (filter not_closed l).
Proof.
  intros Hl Hrs. induction l as [|s l IH]; cbn in *; [discriminate|].
  destruct (Pos.eqb (socket_id s) id) eqn:Hs.
  - injection Hl as Hl. cbn [filter]. unfold not_closed.
    cbn [socket_state]. rewrite Hl.
    destruct rs; try congruence; reflexivity.
  - cbn. destruct (not_closed s); cbn; rewrite <- (IH Hl); reflexivity.
Qed.

(** ** Effects of the operations on timers, sockets and the wheel *)

Lemma quiet_transport_refl (st : world) : quiet_transport st st.
Proof. split; [reflexivity | lia]. Qed.

Lemma quiet_transport_trans (a b c : world) :
  quiet_transport a b -> quiet_transport b c -> quiet_transport a c.
Proof. intros (H1 & H2) (H3 & H4). split; [congruence | lia]. Qed.

Lemma quiet_engine_refl (st : world) : quiet_engine st st.
Proof. repeat split; lia. Qed.

Lemma quiet_engine_trans (a b c : world) :
  quiet_engine a b -> quiet_engine b c -> quiet_engine a c.
Proof.
  intros (H1 & H2 & H3 & H4) (H5 & H6 & H7 & H8).
  repeat split; try congruence; lia.
Qed.

Lemma filter_filter2_length {A : Type} (p q1 q2 : A -> bool) (l : list A) :
  (List.length (filter p (filter q1 (filter q2 l))) <= List.length (filter p l))%nat.
Proof.
  pose proof (filter_filter_length p q1 (filter q2 l)).
  pose proof (filter_filter_length p q2 l). lia.
Qed.

Ltac timer_counts :=
  unfold quiet_transport, quiet_engine, pending_reconnects, pending_result_timers,
    setTimeout, clearTimeout;
  cbn;
  rewrite ?filter_app, ?length_app; cbn;
  repeat split;
  repeat match goal with
         | |- context [filter ?p (filter ?q1 (filter ?q2 ?l))] =>
             lazymatch goal with
             | _ : (List.length (filter p (filter q1 (filter q2 l))) <= _)%nat |- _ => fail
             | _ => pose proof (filter_filter2_length p q1 q2 l)
             end
         | |- context [filter ?p (filter ?q ?l)] =>
             lazymatch goal with
             | _ : (List.length (filter p (filter q l)) <= _)%nat |- _ => fail
             | _ => pose proof (filter_filter_length p q l)
             end
         end;
  try reflexivity; try lia.

Lemma print_quiet (entry : console_entry) (st : world) :
  quiet_transport st (print entry st) /\ quiet_engine st (print entry st).
Proof. repeat split; apply Nat.le_refl. Qed.

Lemma with_doc_quiet (f : document -> document) (st : world) :
  quiet_transport st (with_doc f st) /\ quiet_engine st (with_doc f st).
Proof. repeat split; apply Nat.le_refl. Qed.

Lemma setItems_quiet (elements : list value) (st : world) :
  quiet_transport st (setItems elements st)
  /\ quiet_engine st (setItems elements st).
Proof. repeat split; apply Nat.le_refl. Qed.

Lemma clearTimeout_quiet (id : positive) (st : world) :
  quiet_transport st (clearTimeout id st) /\ quiet_engine st (clearTimeout id st).
Proof. timer_counts. Qed.

Lemma send_quiet (data : value) (st : world) :
  quiet_transport st (send data st) /\ quiet_engine st (send data st).
Proof.
  unfold send. destruct (ws st) as [id|]; [destruct (is_open _)|]; timer_counts.
Qed.

Lemma hide_quiet (st : world) :
  quiet_transport st (hide st) /\ quiet_engine st (hide st).
Proof.
  unfold hide. destruct (hideTimeout (wheel st)); timer_counts.
Qed.

Lemma showResult_effect (result : value) (st : world) :
  quiet_transport st (showResult result st)
  /\ isSpinning (wheel (showResult result st)) = isSpinning (wheel st)
  /\ isShowingResult (wheel (showResult result st)) = isShowingResult (wheel st)
  /\ frames (showResult result st) = frames st
  /\ (List.length (pending_result_timers (showResult result st))
      <= S (List.length (pending_result_timers st)))%nat.
Proof.
  unfold showResult. cbn. destruct (resultTimeout (wheel st)); timer_counts.
Qed.

Lemma reset_effect (st : world) :
  quiet_transport st (reset st)
  /\ isSpinning (wheel (reset st)) = isSpinning (wheel st)
  /\ frames (reset st) = frames st
  /\ (List.length (pending_result_timers (reset st))
      <= List.length (pending_result_timers st))%nat.
Proof.
  unfold reset.
  destruct (hideTimeout (wheel st)) as [h|] eqn:Hh; cbn;
    destruct (resultTimeout (wheel st)) as [r|] eqn:Hr; cbn;
    rewrite ?Hh, ?Hr; timer_counts.
Qed.

Lemma spinAndShow_resume_effect (data result : value) (st : world) :
  let st' := spinAndShow_resume data result st in
  quiet_transport st st'
  /\ isSpinning (wheel st') = isSpinning (wheel st)
  /\ isShowingResult (wheel st') = isShowingResult (wheel st)
  /\ frames st' = frames st
  /\ (List.length (pending_result_timers st')
      <= S (List.length (pending_result_timers st)))%nat.
Proof.
  unfold spinAndShow_resume. destruct (truthy result).
  - destruct (showResult_effect result st) as (Ht1 & Hs1 & Hr1 & Hf1 & Hn1).
    destruct (hide_quiet (showResult result st)) as (Ht2 & Hs2 & Hr2 & Hf2 & Hn2).
    match goal with |- context [send ?d ?s] =>
      destruct (send_quiet d s) as (Ht3 & Hs3 & Hr3 & Hf3 & Hn3) end.
    cbv zeta. repeat split; try congruence; try lia.
    + destruct Ht1, Ht2, Ht3. congruence.
    + destruct Ht1, Ht2, Ht3. lia.
  - cbv zeta. repeat split; lia.
Qed.

(** What one call of [animate] does to the engine: either it requests the
    next frame and leaves flags and timers alone, or it ends the spin. *)
Lemma animate_effect (a : animation) (now : Z) (platform_pow : float) (st : world) :
  let st' := animate a now platform_pow st in
  quiet_transport st st'
  /\ ((frames st' = frames st ++ [a]
       /\ isSpinning (wheel st') = isSpinning (wheel st)
       /\ isShowingResult (wheel st') = isShowingResult (wheel st)
       /\ timers st' = timers st)
      \/ (frames st' = frames st
          /\ isSpinning (wheel st') = false
          /\ isShowingResult (wheel st') = true
          /\ (List.length (pending_result_timers st')
              <= S (List.length (pending_result_timers st)))%nat)).
Proof.
  unfold animate.
  match goal with |- context [PrimFloat.ltb ?p ?q] => destruct (PrimFloat.ltb p q) end.
  - cbv zeta. split; [split; [reflexivity | apply Nat.le_refl]|].
    left. repeat split.
  - match goal with |- context [spinAndShow_resume ?d ?r ?s] =>
      destruct (spinAndShow_resume_effect d r s) as (Ht & Hs & Hr & Hf & Hn) end.
    cbv zeta. split; [exact Ht|]. right.
    rewrite Hs, Hr, Hf. repeat split. exact Hn.
Qed.

Lemma spin_effect (data : value) (i : spin_inputs) (st : world) :
  let st' := spin data i st in
  quiet_transport st st'
  /\ (st' = st
      \/ (exists a, frames st' = frames st ++ [a]
                    /\ isSpinning (wheel st') = true
                    /\ isShowingResult (wheel st') = isShowingResult (wheel st)
                    /\ timers st' = timers st)
      \/ (frames st' = frames st
          /\ isSpinning (wheel st') = false
          /\ isShowingResult (wheel st') = true
          /\ (List.length (pending_result_timers st')
              <= S (List.length (pending_result_timers st)))%nat)).
Proof.
  unfold spin.
  destruct (isSpinning (wheel st) || (List.length (items (wheel st)) =? 0)%nat).
  - cbv zeta. split; [apply quiet_transport_refl | left; reflexivity].
  - match goal with |- context [animate ?a ?n ?p ?s] =>
      destruct (animate_effect a n p s) as (Ht & [H|H]) end.
    + cbv zeta. split; [exact Ht|]. right. left.
      destruct H as (Hf & Hs & Hr & Htm). eexists. repeat split; eassumption.
    + cbv zeta. split; [exact Ht|]. right. right. exact H.
Qed.

Lemma engine_invariant_idle (st : world) :
  frames st = [] -> pending_result_timers st = [] -> engine_invariant st.
Proof.
  intros Hf Hr. unfold engine_invariant. rewrite Hf, Hr. cbn.
  repeat split; try lia; congruence.
Qed.

Lemma engine_invariant_not_busy (st : world) :
  engine_invariant st -> isBusy (wheel st) = false ->
  frames st = [] /\ pending_result_timers st = [].
Proof.
  intros (_ & Hf & _ & Hr) Hbusy. apply orb_false_iff in Hbusy.
  destruct Hbusy as (Hs & Hsh). split.
  - destruct (frames st); [reflexivity|].
    destruct Hf; congruence.
  - destruct (pending_result_timers st); [reflexivity|].
    rewrite Hr in Hsh; congruence.
Qed.

Lemma length_zero_nil {A : Type} (l : list A) : (List.length l <= 0)%nat -> l = [].
Proof. destruct l; cbn; [reflexivity | lia]. Qed.

Lemma quiet_engine_invariant (st st' : world) :
  quiet_engine st st' -> engine_invariant st -> engine_invariant st'.
Proof.
  intros (Hs & Hr & Hf & Hn) (I1 & I2 & I3 & I4).
  unfold engine_invariant. rewrite Hs, Hr, Hf.
  split; [exact I1|]. split; [|split; [lia|]].
  - intros H. destruct (I2 H) as (H1 & H2). split; [exact H1|].
    apply length_zero_nil. rewrite H2 in Hn. exact Hn.
  - intros H. apply I4. intros H0. rewrite H0 in Hn.
    apply length_zero_nil in Hn. contradiction.
Qed.

Lemma quiet_transport_invariant (st st' : world) :
  quiet_transport st st' -> transport_invariant st -> transport_invariant st'.
Proof.
  intros (Hs & Hn). unfold transport_invariant, live_sockets. rewrite Hs. lia.
Qed.

Lemma spinAndShow_effect (data : value) (i : spin_inputs) (st : world) :
  let st' := spinAndShow data i st in
  quiet_transport st st' /\ (engine_invariant st -> engine_invariant st').
Proof.
  unfold spinAndShow. destruct (isBusy (wheel st)) eqn:Hbusy.
  - cbv zeta. split; [apply print_quiet|].
    apply quiet_engine_invariant. apply print_quiet.
  - destruct (reset_effect st) as (Ht & Hs & Hf & Hn).
    destruct (spin_effect data i (reset st)) as (Ht' & Hcases).
    cbv zeta. split; [eapply quiet_transport_trans; eassumption|].
    intros Hinv.
    destruct (engine_invariant_not_busy st Hinv Hbusy) as (Hf0 & Hr0).
    rewrite Hf0 in Hf. rewrite Hr0 in Hn. apply length_zero_nil in Hn.
    destruct Hcases as [-> | [(a & Hfa & Hsa & _ & Htm) | (Hfc & Hsc & Hrc & Hnc)]].
    + apply engine_invariant_idle; assumption.
    + unfold engine_invariant, pending_result_timers in *.
      rewrite Hfa, Hf, Htm, Hn, Hsa. cbn.
      repeat split; try lia; congruence.
    + unfold engine_invariant. rewrite Hfc, Hf, Hsc, Hrc. cbn.
      rewrite Hn in Hnc. cbn in Hnc.
      repeat split; try lia; congruence.
Qed.

Lemma handleTriggerAction_effect (event : value) (i : spin_inputs) (st st' : world) :
  handleTriggerAction event i st = Normal st' ->
  quiet_transport st st' /\ (engine_invariant st -> engine_invariant st').
Proof.
  unfold handleTriggerAction.
  destruct (get event "action_type") as [action_type|]; [|discriminate].
  destruct (get event "data") as [data|]; [|discriminate].
  cbn [bind]. destruct (is_string action_type "spin_wheel").
  - destruct (get data "items") as [data_items|]; [|discriminate].
    cbn [bind]. destruct (truthy data_items && Array_isArray data_items).
    + intros [= <-].
      destruct (spinAndShow_effect data i (setItems (elements_of data_items) st))
        as (Ht & Hinv).
      destruct (setItems_quiet (elements_of data_items) st) as (Ht0 & He0).
      split; [eapply quiet_transport_trans; eassumption|].
      intros H. apply Hinv. eapply quiet_engine_invariant; eassumption.
    + intros [= <-]. split; [apply quiet_transport_refl | auto].
  - intros [= <-]. split; [apply print_quiet|].
    apply quiet_engine_invariant, print_quiet.
Qed.

Lemma handleConfigUpdate_effect (event : value) (st st' : world) :
  handleConfigUpdate event st = Normal st' ->
  quiet_transport st st' /\ quiet_engine st st'.
Proof.
  unfold handleConfigUpdate.
  destruct (get event "positions") as [positions|]; [|discriminate].
  cbn [bind]. destruct (truthy positions).
  - destruct (applyPositions positions (doc st)) as [d|]; [|discriminate].
    cbn [bind]. intros [= <-]. apply with_doc_quiet.
  - intros [= <-]. split; [apply quiet_transport_refl | apply quiet_engine_refl].
Qed.

Lemma handleEvent_effect (event : value) (i : spin_inputs) (st st' : world) :
  handleEvent event i st = Normal st' ->
  quiet_transport st st' /\ (engine_invariant st -> engine_invariant st').
Proof.
  unfold handleEvent.
  destruct (get event "type") as [type|]; [|discriminate].
  cbn [bind]. destruct (is_string type "trigger_action").
  - apply handleTriggerAction_effect.
  - destruct (is_string type "config_update").
    + intros H. destruct (handleConfigUpdate_effect _ _ _ H) as (Ht & He).
      split; [exact Ht | apply quiet_engine_invariant; exact He].
    + destruct (is_string type "ping"); intros [= <-].
      * split; [apply quiet_transport_refl | auto].
      * split; [apply print_quiet | apply quiet_engine_invariant, print_quiet].
Qed.

Lemma onmessage_effect (parsed : option value) (i : spin_inputs) (st : world) :
  quiet_transport st (onmessage parsed i st)
  /\ (engine_invariant st -> engine_invariant (onmessage parsed i st)).
Proof.
  unfold onmessage. destruct parsed as [data|].
  - destruct (handleEvent data i (print (console_log "Received event:") st))
      as [st'|] eqn:H.
    + destruct (handleEvent_effect _ _ _ _ H) as (Ht & Hinv).
      split.
      * eapply quiet_transport_trans; [apply print_quiet | exact Ht].
      * intros Hi. apply Hinv. eapply quiet_engine_invariant; [apply print_quiet | exact Hi].
    + split; [split; [reflexivity | apply Nat.le_refl]|].
      apply quiet_engine_invariant. repeat split; apply Nat.le_refl.
  - split; [apply print_quiet | apply quiet_engine_invariant, print_quiet].
Qed.

Lemma connect_effect (constructor_throws : bool) (st : world) :
  let st' := connect constructor_throws st in
  quiet_engine st st'
  /\ ((constructor_throws = true
       /\ sockets st' = sockets st
       /\ ws st' = ws st
       /\ reconnectTimeout st' = Some (next_timer st)
       /\ timers st' = timers st ++ [{| timer_id := next_timer st;
                                        timer_delay := RECONNECT_INTERVAL;
                                        timer_callback := reconnect_after_throw |}])
      \/ (constructor_throws = false
          /\ sockets st' = sockets st ++ [{| socket_id := next_socket st;
                                             socket_state := CONNECTING |}]
          /\ ws st' = Some (next_socket st)
          /\ timers st' = timers st)).
Proof.
  unfold connect. destruct constructor_throws; cbv zeta.
  - split; [timer_counts|]. left. repeat split.
  - split; [repeat split; apply Nat.le_refl|]. right. repeat split.
Qed.

Lemma onclose_effect (st : world) :
  let st' := onclose st in
  quiet_engine st st'
  /\ sockets st' = sockets st
  /\ ws st' = None
  /\ reconnectTimeout st' = Some (next_timer st)
  /\ timers st' = timers st ++ [{| timer_id := next_timer st;
                                   timer_delay := 3000;
                                   timer_callback := reconnect_after_close |}].
Proof. unfold onclose. cbv zeta. split; [timer_counts|]. repeat split. Qed.

Lemma onopen_quiet (st : world) :
  quiet_transport st (onopen st) /\ quiet_engine st (onopen st).
Proof.
  unfold onopen. cbv zeta.
  match goal with |- context [send ?d ?s] =>
    destruct (send_quiet d s) as (Ht & He);
    assert (Hs : quiet_transport st s /\ quiet_engine st s)
  end.
  { destruct (reconnectTimeout _); timer_counts. }
  destruct Hs as (Ht0 & He0).
  split; [eapply quiet_transport_trans | eapply quiet_engine_trans]; eassumption.
Qed.

Lemma beforeunload_effect (st : world) :
  List.length (live_sockets (beforeunload st)) = List.length (live_sockets st)
  /\ (List.length (pending_reconnects (beforeunload st))
      <= List.length (pending_reconnects st))%nat
  /\ quiet_engine st (beforeunload st).
Proof.
  unfold beforeunload, live_sockets.
  destruct (ws st) as [id|]; cbv zeta.
  - destruct (socket_lookup (sockets st) id) as [rs|] eqn:Hl.
    + destruct rs; destruct (reconnectTimeout _);
        cbn [sockets set_sockets clearTimeout set_timers];
        rewrite ?(socket_update_still_live _ _ _ CLOSING Hl) by discriminate;
        timer_counts.
    + destruct (reconnectTimeout _); timer_counts.
  - destruct (reconnectTimeout _); timer_counts.
Qed.

Lemma resetPositions_quiet (st st' : world) :
  resetPositions st = Normal st' -> quiet_transport st st' /\ quiet_engine st st'.
Proof.
  unfold resetPositions.
  match goal with |- context [send ?d ?s] =>
    destruct (send_quiet d s) as (Ht & He); generalize dependent (send d s) end.
  intros s Ht He. cbn. intros [= <-].
  destruct (with_doc_quiet (fun _ => set_layout (VNumber (Fin 50)) (VNumber (Fin 50))
                                                (VNumber (Fin 1)) (doc s)) s)
    as (Ht' & He').
  split; [eapply quiet_transport_trans | eapply quiet_engine_trans]; eassumption.
Qed.

(** ** Invariants of the event loop *)

Lemma connect_transport (constructor_throws : bool) (st : world) :
  (List.length (live_sockets (connect constructor_throws st))
   + List.length (pending_reconnects (connect constructor_throws st))
   = S (List.length (live_sockets st) + List.length (pending_reconnects st)))%nat.
Proof.
  destruct (connect_effect constructor_throws st)
    as (_ & [(_ & Hs & _ & _ & Ht) | (_ & Hs & _ & Ht)]);
    unfold live_sockets, pending_reconnects; rewrite Hs, Ht;
    rewrite filter_app, length_app; cbn; lia.
Qed.

Lemma step_transport_invariant (ev : event) (st st' : world) :
  transport_invariant st -> step ev st = Some st' -> transport_invariant st'.
Proof.
  intros Hinv. destruct ev as [id|id parsed i|id|id|id throws|now platform_pow| |]; cbn [step].
  - (* open *)
    destruct (socket_lookup (sockets st) id) as [[]|] eqn:Hl; try discriminate.
    intros [= <-].
    match goal with |- context [onopen ?s] =>
      destruct (onopen_quiet s) as ((Hs & Hn) & _) end.
    unfold transport_invariant, live_sockets in *. rewrite Hs. cbn [sockets set_sockets].
    rewrite (socket_update_still_live _ _ _ OPEN Hl) by discriminate.
    cbn in Hn. unfold pending_reconnects in *. lia.
  - (* message *)
    destruct (socket_lookup (sockets st) id) as [[]|]; try discriminate.
    intros [= <-]. eapply quiet_transport_invariant; [|exact Hinv].
    apply onmessage_effect.
  - (* error *)
    destruct (socket_lookup (sockets st) id) as [[]|]; try discriminate;
      intros [= <-]; (eapply quiet_transport_invariant; [|exact Hinv]);
      apply print_quiet.
  - (* close *)
    destruct (socket_lookup (sockets st) id) as [rs|] eqn:Hl; [|discriminate].
    assert (Hrs : rs <> CLOSED -> transport_invariant
             (onclose (set_sockets (socket_update id CLOSED (sockets st))
                                   (next_socket st) st))).
    { intros Hrs.
      match goal with |- context [onclose ?s] =>
        destruct (onclose_effect s) as (_ & Hs & _ & _ & Ht) end.
      unfold transport_invariant, live_sockets, pending_reconnects in *.
      rewrite Hs, Ht. cbn [sockets set_sockets timers].
      pose proof (socket_update_closes_one _ _ _ Hl Hrs).
      rewrite filter_app, length_app. cbn. lia. }
    destruct rs; try discriminate; intros [= <-]; apply Hrs; discriminate.
  - (* timeout *)
    destruct (timer_lookup (timers st) id) as [t|] eqn:Hl; [|discriminate].
    intros [= <-]. destruct (timer_lookup_found _ _ _ Hl) as (Hin & Hid).
    destruct (clearTimeout_quiet id st) as ((Hs & Hn) & _).
    assert (Hdrop : is_reconnect t = true ->
              (S (List.length (pending_reconnects (clearTimeout id st)))
               <= List.length (pending_reconnects st))%nat).
    { intros Hr. unfold pending_reconnects, clearTimeout. cbn [timers set_timers].
      apply (filter_drops_one _ _ _ t Hin Hr). rewrite Hid. reflexivity. }
    unfold is_reconnect in Hdrop.
    destruct (timer_callback t); cbn [run_callback].
    + rewrite ?connect_transport.
      match goal with |- transport_invariant (connect _ ?s) =>
        assert (Hp : quiet_transport (clearTimeout id st) s) by apply print_quiet end.
      unfold transport_invariant in *. rewrite connect_transport.
      destruct Hp as (Hs' & Hn'). unfold live_sockets in *.
      rewrite Hs', Hs. specialize (Hdrop eq_refl). lia.
    + unfold transport_invariant in *. rewrite connect_transport.
      unfold live_sockets in *. rewrite Hs. specialize (Hdrop eq_refl). lia.
    + eapply quiet_transport_invariant; [|exact Hinv].
      eapply quiet_transport_trans; [split; [exact Hs | exact Hn]|].
      timer_counts.
    + eapply quiet_transport_invariant; [|exact Hinv].
      eapply quiet_transport_trans; [split; [exact Hs | exact Hn]|].
      timer_counts.
    + eapply quiet_transport_invariant; [|exact Hinv].
      eapply quiet_transport_trans; [split; [exact Hs | exact Hn]|].
      timer_counts.
  - (* animation frame *)
    destruct (frames st) as [|a rest]; [discriminate|].
    intros [= <-]. eapply quiet_transport_invariant; [|exact Hinv].
    destruct (animate_effect a now platform_pow (set_frames rest st)) as ((Hs & Hn) & _).
    split; [exact Hs | exact Hn].
  - (* beforeunload *)
    intros [= <-]. destruct (beforeunload_effect st) as (Hs & Hn & _).
    unfold transport_invariant in *. lia.
  - (* reset click *)
    destruct (resetPositions st) as [s|] eqn:H; [|discriminate].
    intros [= <-]. eapply quiet_transport_invariant; [|exact Hinv].
    apply (resetPositions_quiet _ _ H).
Qed.

Lemma step_engine_invariant (ev : event) (st st' : world) :
  engine_invariant st -> step ev st = Some st' -> engine_invariant st'.
Proof.
  intros Hinv. destruct ev as [id|id parsed i|id|id|id throws|now platform_pow| |]; cbn [step].
  - (* open *)
    destruct (socket_lookup (sockets st) id) as [[]|]; try discriminate.
    intros [= <-].
    match goal with |- context [onopen ?s] =>
      destruct (onopen_quiet s) as (_ & He) end.
    eapply quiet_engine_invariant; [exact He|]. exact Hinv.
  - (* message *)
    destruct (socket_lookup (sockets st) id) as [[]|]; try discriminate.
    intros [= <-]. apply onmessage_effect. exact Hinv.
  - (* error *)
    destruct (socket_lookup (sockets st) id) as [[]|]; try discriminate;
      intros [= <-]; (eapply quiet_engine_invariant; [|exact Hinv]);
      apply print_quiet.
  - (* close *)
    destruct (socket_lookup (sockets st) id) as [rs|]; [|discriminate].
    assert (H : engine_invariant
                  (onclose (set_sockets (socket_update id CLOSED (sockets st))
                                        (next_socket st) st))).
    { match goal with |- context [onclose ?s] =>
        destruct (onclose_effect s) as (He & _) end.
      eapply quiet_engine_invariant; [exact He|]. exact Hinv. }
    destruct rs; try discriminate; intros [= <-]; exact H.
  - (* timeout *)
    destruct (timer_lookup (timers st) id) as [t|] eqn:Hl; [|discriminate].
    intros [= <-]. destruct (timer_lookup_found _ _ _ Hl) as (Hin & Hid).
    destruct (clearTimeout_quiet id st) as (_ & Hclear).
    pose proof (quiet_engine_invariant _ _ Hclear Hinv) as Hinv1.
    assert (Hdrop : is_result_timer t = true ->
              pending_result_timers (clearTimeout id st) = []
              /\ frames st = [] /\ isShowingResult (wheel st) = true).
    { intros Hr. destruct Hinv as (_ & I2 & I3 & I4).
      assert (Hne : pending_result_timers st <> []).
      { unfold pending_result_timers. intros H0.
        assert (Hin' : In t (filter is_result_timer (timers st)))
          by (apply filter_In; split; assumption).
        rewrite H0 in Hin'. exact Hin'. }
      split; [|split].
      - apply length_zero_nil.
        assert (Hd : (S (List.length (pending_result_timers (clearTimeout id st)))
                      <= List.length (pending_result_timers st))%nat).
        { unfold pending_result_timers, clearTimeout. cbn [timers set_timers].
          apply (filter_drops_one _ _ _ t Hin Hr). rewrite Hid. reflexivity. }
        lia.
      - destruct (frames st) eqn:Hf; [reflexivity|].
        destruct I2 as (_ & H0); [discriminate | contradiction].
      - exact (I4 Hne). }
    unfold is_result_timer in Hdrop.
    destruct (timer_callback t); cbn [run_callback].
    + match goal with |- engine_invariant (connect _ ?s) =>
        destruct (connect_effect throws s) as (He & _);
        assert (Hp : quiet_engine (clearTimeout id st) s) by apply print_quiet end.
      eapply quiet_engine_invariant; [exact He|].
      eapply quiet_engine_invariant; [exact Hp|]. exact Hinv1.
    + destruct (connect_effect throws (clearTimeout id st)) as (He & _).
      eapply quiet_engine_invariant; [exact He|]. exact Hinv1.
    + destruct (Hdrop eq_refl) as (Hnil & Hf & Hshow).
      unfold engine_invariant, pending_result_timers in *.
      cbn. cbn in Hnil. rewrite Hf, filter_app, Hnil, Hshow. cbn.
      repeat split; try lia; congruence.
    + destruct (Hdrop eq_refl) as (Hnil & Hf & Hshow).
      apply engine_invariant_idle; [exact Hf | exact Hnil].
    + eapply quiet_engine_invariant; [|exact Hinv1].
      apply with_doc_quiet.
  - (* animation frame *)
    destruct (frames st) as [|a rest] eqn:Hf; [discriminate|].
    intros [= <-]. destruct Hinv as (I1 & I2 & I3 & I4).
    rewrite Hf in I1. cbn in I1.
    assert (Hrest : rest = []) by (apply length_zero_nil; lia). subst rest.
    destruct I2 as (Hspin & Hnil); [rewrite Hf; discriminate|].
    destruct (animate_effect a now platform_pow (set_frames [] st))
      as (_ & [(Hfa & Hsa & Hra & Hta) | (Hfa & Hsa & Hra & Hna)]).
    + unfold engine_invariant, pending_result_timers in *.
      rewrite Hfa, Hsa, Hta. cbn. cbn in Hnil. rewrite Hnil. cbn.
      repeat split; try lia; try congruence.
    + unfold engine_invariant. rewrite Hfa, Hsa, Hra. cbn.
      unfold pending_result_timers in Hna, Hnil |- *. cbn in Hna.
      rewrite Hnil in Hna. cbn in Hna.
      repeat split; try lia; congruence.
  - (* beforeunload *)
    intros [= <-]. eapply quiet_engine_invariant; [|exact Hinv].
    apply beforeunload_effect.
  - (* reset click *)
    destruct (resetPositions st) as [s|] eqn:H; [|discriminate].
    intros [= <-]. eapply quiet_engine_invariant; [|exact Hinv].
    apply (resetPositions_quiet _ _ H).
Qed.

Lemma reachable_invariants (st : world) :
  reachable st -> transport_invariant st /\ engine_invariant st.
Proof.
  induction 1 as [d throws | st ev st' _ (IHt & IHe) Hstep].
  - split.
    + unfold transport_invariant, DOMContentLoaded.
      rewrite connect_transport. cbn. lia.
    + unfold DOMContentLoaded.
      match goal with |- engine_invariant (connect _ ?s) =>
        destruct (connect_effect throws s) as (He & _) end.
      eapply quiet_engine_invariant; [exact He|].
      apply engine_invariant_idle; reflexivity.
  - split.
    + exact (step_transport_invariant ev st st' IHt Hstep).
    + exact (step_engine_invariant ev st st' IHe Hstep).
Qed.

Lemma live_socket_counts (l : list socket) (id : positive) (rs : readyState) :
  socket_lookup l id = Some rs -> rs <> CLOSED ->
  (1 <= List.length (filter not_closed l))%nat.
Proof.
  intros Hl Hrs. pose proof (socket_update_closes_one l id rs Hl Hrs). lia.
Qed.

(** ** Transport: reconnection *)

(** An error event is followed by the close event of the same socket: after
    the error handler the socket can still close. *)
Lemma close_after_error (id : positive) (st st1 : world) :
  step (ev_error id) st = Some st1 ->
  timers st1 = timers st
  /\ next_timer st1 = next_timer st
  /\ exists st', step (ev_close id) st1 = Some st'.
Proof.
  cbn [step].
  destruct (socket_lookup (sockets st) id) as [rs|] eqn:Hl; [|discriminate].
  destruct rs; try discriminate; intros [= <-];
    (split; [reflexivity|]); (split; [reflexivity|]);
    cbn [step onerror print sockets]; rewrite Hl; eexists; reflexivity.
Qed.

(** What a close event does in a state of a run: no reconnect timer is
    pending when it arrives, and the one it schedules is the only one
    afterwards. *)
Lemma close_schedules_one (id : positive) (st st' : world) :
  transport_invariant st ->
  step (ev_close id) st = Some st' ->
  let scheduled := {| timer_id := next_timer st;
                      timer_delay := 3000;
                      timer_callback := reconnect_after_close |} in
  pending_reconnects st = []
  /\ timers st' = timers st ++ [scheduled]
  /\ pending_reconnects st' = [scheduled]
  /\ reconnectTimeout st' = Some (next_timer st)
  /\ ws st' = None.
Proof.
  intros Hinv. unfold transport_invariant in Hinv. cbn [step].
  destruct (socket_lookup (sockets st) id) as [rs|] eqn:Hl; [|discriminate].
  assert (Hrs : rs <> CLOSED ->
                Some (onclose (set_sockets (socket_update id CLOSED (sockets st))
                                           (next_socket st) st)) = Some st' ->
                pending_reconnects st = []
                /\ timers st' = timers st ++ [{| timer_id := next_timer st;
                                                 timer_delay := 3000;
                                                 timer_callback := reconnect_after_close |}]
                /\ pending_reconnects st' = [{| timer_id := next_timer st;
                                                timer_delay := 3000;
                                                timer_callback := reconnect_after_close |}]
                /\ reconnectTimeout st' = Some (next_timer st)
                /\ ws st' = None).
  { intros Hrs [= <-].
    pose proof (live_socket_counts _ _ _ Hl Hrs) as Hlive.
    unfold live_sockets in Hinv.
    assert (Hnil : pending_reconnects st = []) by (apply length_zero_nil; lia).
    match goal with |- context [onclose ?s] =>
      destruct (onclose_effect s) as (_ & _ & Hws & Hrt & Ht) end.
    cbn [timers set_sockets next_timer] in Ht, Hrt.
    repeat split; try assumption.
    unfold pending_reconnects in *. rewrite Ht, filter_app, Hnil. reflexivity. }
  destruct rs; try discriminate; intros H; apply Hrs; (discriminate || exact H).
Qed.

(** C5. In every state of a run at most one reconnect timer is pending.
    When a connection is lost, exactly one reconnect is scheduled, 3000 ms
    later, and no reconnect timer scheduled earlier is pending next to it:
    - a close event appends one timer, and afterwards that timer is the
      only pending reconnect ([ws] is [null] and the handle is stored);
    - a connection error, which the browser reports as an error event
      followed by the close event of the same socket, ends in the same
      way: the close event can be delivered after the error handler, and
      after it the one timer of the close handler is the only pending
      reconnect;
    - when [new WebSocket] throws inside a reconnect attempt, the timer that
      fired is gone and the one timer of the [catch] is the only pending
      reconnect.
    The handlers themselves call no [clearTimeout]: each socket closes once
    and each reconnect timer opens one socket, so no earlier timer is pending
    when the new one is scheduled. *)
Theorem reconnect_timers_never_accumulate (st : world) :
  reachable st ->
  (List.length (pending_reconnects st) <= 1)%nat
  /\ (forall id st',
        step (ev_close id) st = Some st' ->
        let scheduled := {| timer_id := next_timer st;
                            timer_delay := 3000;
                            timer_callback := reconnect_after_close |} in
        pending_reconnects st = []
        /\ timers st' = timers st ++ [scheduled]
        /\ pending_reconnects st' = [scheduled]
        /\ reconnectTimeout st' = Some (next_timer st)
        /\ ws st' = None)
  /\ (forall id st1,
        step (ev_error id) st = Some st1 ->
        exists st',
          run [ev_error id; ev_close id] st = Some st'
          /\ timers st' = timers st ++ [{| timer_id := next_timer st;
                                           timer_delay := 3000;
                                           timer_callback := reconnect_after_close |}]
          /\ pending_reconnects st'
             = [{| timer_id := next_timer st;
                   timer_delay := 3000;
                   timer_callback := reconnect_after_close |}])
  /\ (forall id t st',
        timer_lookup (timers st) id = Some t ->
        is_reconnect t = true ->
        step (ev_timeout id true) st = Some st' ->
        pending_reconnects st'
        = [{| timer_id := next_timer st;
              timer_delay := 3000;
              timer_callback := reconnect_after_throw |}]).
Proof.
  intros Hreach. destruct (reachable_invariants st Hreach) as (Hinv & _).
  split; [unfold transport_invariant in Hinv; lia|]. split; [|split].
  - intros id st'. apply close_schedules_one. exact Hinv.
  - intros id st1 Herr.
    destruct (close_after_error id st st1 Herr) as (Ht1 & Hn1 & st' & Hclose).
    assert (Hinv1 : transport_invariant st1)
      by exact (step_transport_invariant _ _ _ Hinv Herr).
    destruct (close_schedules_one id st1 st' Hinv1 Hclose) as (_ & Ht & Hp & _).
    exists st'. cbn [run]. rewrite Herr, Hclose.
    rewrite Ht1, Hn1 in Ht. rewrite Hn1 in Hp.
    split; [reflexivity|]. split; assumption.
  - intros id t st' Hl Hr. cbn [step]. rewrite Hl. intros [= <-].
    unfold transport_invariant in Hinv.
    destruct (timer_lookup_found _ _ _ Hl) as (Hin & Hid).
    assert (Hnil : pending_reconnects (clearTimeout id st) = []).
    { apply length_zero_nil.
      assert (Hd : (S (List.length (pending_reconnects (clearTimeout id st)))
                    <= List.length (pending_reconnects st))%nat).
      { unfold pending_reconnects, clearTimeout. cbn [timers set_timers].
        apply (filter_drops_one _ _ _ t Hin Hr). rewrite Hid. reflexivity. }
      lia. }
    unfold is_reconnect in Hr.
    destruct (timer_callback t); try discriminate; cbn [run_callback];
      match goal with |- context [connect true ?s] =>
        destruct (connect_effect true s) as (_ & [(_ & _ & _ & _ & Ht) | (Hf & _)]);
        [|discriminate]
      end;
      unfold pending_reconnects in *; rewrite Ht, filter_app;
      cbn [timers print next_timer clearTimeout set_timers] in *;
      rewrite Hnil; reflexivity.
Qed.

Lemma reconnect_timers_never_accumulate_witness :
  (List.length (pending_reconnects spinning_page) <= 1)%nat
  /\ (exists st',
        step (ev_close 1) spinning_page = Some st'
        /\ List.length (pending_reconnects st') = 1%nat)
  /\ (exists st',
        run [ev_error 1; ev_close 1] spinning_page = Some st'
        /\ List.length (pending_reconnects st') = 1%nat).
Proof.
  destruct (reconnect_timers_never_accumulate spinning_page spinning_page_reachable)
    as (Hle & Hclose & Herror & _).
  split; [exact Hle|]. split.
  - eexists. split; [reflexivity|].
    destruct (Hclose 1%positive _ eq_refl) as (_ & _ & Hp & _).
    rewrite Hp. reflexivity.
  - destruct (Herror 1%positive _ eq_refl) as (st' & Hrun & _ & Hp).
    exists st'. split; [exact Hrun|]. rewrite Hp. reflexivity.
Defined.

(** ** Spin engine: the busy flag *)

Lemma finish_trace_busy (w : SpinningWheel) :
  isSpinning w = true ->
  Forall (fun w' => isBusy w' = true) (finish_trace w)
  /\ isSpinning (finish w) = false
  /\ isShowingResult (finish w) = true.
Proof.
  intros Hs. unfold finish, finish_trace, normalize_rotation. cbn [last].
  split; [|split; reflexivity].
  repeat constructor; unfold isBusy; cbn; rewrite ?Hs; auto using orb_true_r.
Qed.

(** C6. From the acceptance of a trigger until the result display ends the
    wheel is busy. In every reachable state in which a frame of the
    animation or a timer of the result display is pending, [isBusy()] is
    true. One call of [animate] on a spinning wheel ends in a busy state,
    whether it requests the next frame or ends the spin. And on the last
    frame, after each of the three field writes (rotation,
    [isShowingResult = true], [isSpinning = false]) [isBusy()] is true:
    the flags are never both false. *)
Theorem busy_from_trigger_to_result_end
    (st : world) (w : SpinningWheel) (a : animation) (now : Z) (platform_pow : float) :
  reachable st ->
  (result_pending st -> isBusy (wheel st) = true)
  /\ (isSpinning (wheel st) = true ->
      isBusy (wheel (animate a now platform_pow st)) = true)
  /\ (isSpinning w = true ->
      Forall (fun w' => isBusy w' = true) (finish_trace w)
      /\ isSpinning (finish w) = false
      /\ isShowingResult (finish w) = true).
Proof.
  intros Hreach. destruct (reachable_invariants st Hreach) as (_ & Hinv).
  destruct Hinv as (_ & I2 & _ & I4).
  split; [|split].
  - intros [Hf | Hr]; unfold isBusy.
    + destruct (I2 Hf) as (-> & _). reflexivity.
    + rewrite (I4 Hr). apply orb_true_r.
  - intros Hs. unfold isBusy.
    destruct (animate_effect a now platform_pow st)
      as (_ & [(_ & Hsa & _ & _) | (_ & _ & Hra & _)]).
    + rewrite Hsa, Hs. reflexivity.
    + rewrite Hra. apply orb_true_r.
  - apply finish_trace_busy.
Qed.

Lemma busy_from_trigger_to_result_end_witness :
  isBusy (wheel spinning_page) = true
  /\ Forall (fun w' => isBusy w' = true) (finish_trace (wheel spinning_page)).
Proof.
  destruct (busy_from_trigger_to_result_end spinning_page (wheel spinning_page)
              {| startTime := 0; startRotation := 0%float; totalRotation := 0%float;
                 wheelData := VNull |} 0%Z 0%float spinning_page_reachable)
    as (Hpending & _ & Htrace).
  split.
  - apply Hpending. left. discriminate.
  - apply Htrace. reflexivity.
Defined.

(** * Further properties of the scripts *)

(** ** Transport: opening, reconnecting, incoming text *)

Lemma socket_lookup_update (l : list socket) (id : positive) (rs rs' : readyState) :
  socket_lookup l id = Some rs ->
  socket_lookup (socket_update id rs' l) id = Some rs'.
Proof.
  induction l as [|s l IH]; cbn; [discriminate|].
  destruct (Pos.eqb (socket_id s) id) eqn:Hs; cbn.
  - intros _. rewrite Pos.eqb_refl. reflexivity.
  - rewrite Hs. exact IH.
Qed.

Lemma timer_lookup_cleared (l : list timer) (id : positive) :
  timer_lookup (filter (fun t => negb (Pos.eqb (timer_id t) id)) l) id = None.
Proof.
  induction l as [|t l IH]; cbn; [reflexivity|].
  destruct (Pos.eqb (timer_id t) id) eqn:Ht; cbn; [exact IH|].
  rewrite Ht. exact IH.
Qed.

Lemma timer_lookup_filtered (p : timer -> bool) (l : list timer) (id : positive) :
  timer_lookup l id = None -> timer_lookup (filter p l) id = None.
Proof.
  induction l as [|t l IH]; cbn; [reflexivity|].
  destruct (Pos.eqb (timer_id t) id) eqn:Ht; [discriminate|].
  intros H. destruct (p t); cbn; rewrite ?Ht; exact (IH H).
Qed.

(** X1. When the socket the page holds opens, the page asks for its
    configuration on that socket, once, and forgets the reconnect handle:
    the timer the handle named, if it was still pending, is cancelled. *)
Theorem open_requests_config (id : positive) (st st' : world) :
  ws st = Some id ->
  step (ev_open id) st = Some st' ->
  wire st' = wire st ++ [(id, JSON_stringify (VObject [("type", VString "request_config")]))]
  /\ socket_lookup (sockets st') id = Some OPEN
  /\ ws st' = Some id
  /\ reconnectTimeout st' = None
  /\ (forall handle, reconnectTimeout st = Some handle ->
        timer_lookup (timers st') handle = None).
Proof.
  intros Hws. cbn [step].
  destruct (socket_lookup (sockets st) id) as [[]|] eqn:Hl; try discriminate.
  intros [= <-]. pose proof (socket_lookup_update _ _ _ OPEN Hl) as Hopen.
  unfold onopen, send.
  destruct (reconnectTimeout st) as [handle|] eqn:Hr; cbn; rewrite ?Hr; cbn;
    rewrite Hws, Hopen; cbn; rewrite ?Hr; repeat split; try assumption;
    try discriminate.
  intros h [= <-]. apply timer_lookup_cleared.
Qed.

Lemma open_requests_config_witness :
  wire connected_page
  = [(1%positive, JSON_stringify (VObject [("type", VString "request_config")]))]
  /\ reconnectTimeout connected_page = None.
Proof.
  destruct (open_requests_config 1 (DOMContentLoaded page false) connected_page
              eq_refl eq_refl) as (Hwire & _ & _ & Hr & _).
  split; [exact Hwire | exact Hr].
Defined.

(** X2. Incoming text the dispatcher has no case for changes nothing but
    the console: text that is not JSON, a JSON value without properties
    ([null]), the keep-alive [ping], and an object of an unknown type. *)
Theorem unhandled_message_only_logs (i : spin_inputs) (st : world) :
  onmessage None i st = print (console_error "Failed to parse message:") st
  /\ onmessage (Some VNull) i st
     = print (console_error "Failed to parse message:")
             (print (console_log "Received event:") st)
  /\ (forall event,
        get event "type" = Normal (VString "ping") ->
        onmessage (Some event) i st = print (console_log "Received event:") st)
  /\ (forall event type,
        get event "type" = Normal type ->
        is_string type "trigger_action" = false ->
        is_string type "config_update" = false ->
        is_string type "ping" = false ->
        onmessage (Some event) i st
        = print (console_warn "Unknown event type:")
                (print (console_log "Received event:") st)).
Proof.
  split; [reflexivity|]. split; [reflexivity|]. split.
  - intros event H. unfold onmessage, handleEvent. rewrite H. reflexivity.
  - intros event type H H1 H2 H3. unfold onmessage, handleEvent.
    rewrite H. cbn [bind]. rewrite H1, H2, H3. reflexivity.
Qed.

Lemma unhandled_message_only_logs_witness :
  onmessage (Some (VObject [("type", VString "ping")])) sample_inputs connected_page
  = print (console_log "Received event:") connected_page
  /\ onmessage (Some (VObject [("type", VNumber (Fin 7))])) sample_inputs connected_page
     = print (console_warn "Unknown event type:")
             (print (console_log "Received event:") connected_page).
Proof.
  destruct (unhandled_message_only_logs sample_inputs connected_page)
    as (_ & _ & Hping & Hunknown).
  split.
  - apply Hping. reflexivity.
  - apply (Hunknown _ (VNumber (Fin 7))); reflexivity.
Defined.

(** X3. A reconnect attempt whose constructor succeeds leaves one socket,
    CONNECTING and held by the page, and no reconnect timer: in a run, the
    timer that fired was the only one and no socket was still alive. *)
Theorem reconnect_attempt_opens_socket (id : positive) (t : timer) (st st' : world) :
  reachable st ->
  timer_lookup (timers st) id = Some t ->
  is_reconnect t = true ->
  step (ev_timeout id false) st = Some st' ->
  let opened := {| socket_id := next_socket st; socket_state := CONNECTING |} in
  sockets st' = sockets st ++ [opened]
  /\ ws st' = Some (next_socket st)
  /\ live_sockets st' = [opened]
  /\ pending_reconnects st' = [].
Proof.
  intros Hreach Hl Hr. cbn [step]. rewrite Hl. intros [= <-].
  destruct (reachable_invariants st Hreach) as (Hinv & _).
  unfold transport_invariant in Hinv.
  destruct (timer_lookup_found _ _ _ Hl) as (Hin & Hid).
  assert (Hd : (S (List.length (pending_reconnects (clearTimeout id st)))
                <= List.length (pending_reconnects st))%nat).
  { unfold pending_reconnects, clearTimeout. cbn [timers set_timers].
    apply (filter_drops_one _ _ _ t Hin Hr). rewrite Hid. reflexivity. }
  assert (Hnil : pending_reconnects (clearTimeout id st) = [])
    by (apply length_zero_nil; lia).
  assert (Hlive : live_sockets st = []) by (apply length_zero_nil; lia).
  unfold is_reconnect in Hr.
  destruct (timer_callback t); try discriminate; cbn [run_callback];
    match goal with |- context [connect false ?s] =>
      destruct (connect_effect false s) as (_ & [(Hf & _) | (_ & Hs & Hws & Ht)]);
      [discriminate|]
    end;
    cbv zeta; unfold live_sockets, pending_reconnects in *;
    rewrite Hs, Hws, Ht; cbn [sockets print clearTimeout set_timers next_socket timers];
    rewrite filter_app, Hlive; cbn [timers clearTimeout set_timers] in Hnil;
    rewrite Hnil; repeat split.
Qed.

Lemma reconnect_attempt_opens_socket_witness :
  exists st st',
    run [ev_close 1] connected_page = Some st
    /\ step (ev_timeout 1 false) st = Some st'
    /\ ws st' = Some 2%positive
    /\ pending_reconnects st' = [].
Proof.
  eexists. eexists. split; [reflexivity|]. split; [reflexivity|].
  assert (Hreach : reachable connected_page).
  { apply (reachable_step (DOMContentLoaded page false) (ev_open 1));
      [apply reachable_init | vm_compute; reflexivity]. }
  destruct (reconnect_attempt_opens_socket 1
              {| timer_id := 1; timer_delay := 3000;
                 timer_callback := reconnect_after_close |} _ _
              (reachable_step _ (ev_close 1) _ Hreach eq_refl)
              eq_refl eq_refl eq_refl) as (_ & Hws & _ & Hp).
  split; [exact Hws | exact Hp].
Defined.

(** ** Spin engine: sessions *)

Lemma reset_doc (st : world) :
  result_hidden (doc (reset st)) = true
  /\ result_fade_out (doc (reset st)) = false
  /\ result_textContent (doc (reset st)) = VString ""
  /\ container_hidden (doc (reset st)) = false.
Proof.
  unfold reset.
  destruct (hideTimeout (wheel st)) as [h|] eqn:Hh; cbn;
    destruct (resultTimeout (wheel st)) as [r|] eqn:Hr; cbn;
    rewrite ?Hh, ?Hr; repeat split.
Qed.

(** X4. In every state of a run at most one spin is in flight and at most
    one result is on display: at most one animation frame is pending, and
    then the wheel is spinning and no timer of the result display is
    pending; at most one such timer is pending, and then the wheel is
    showing a result. *)
Theorem at_most_one_spin_in_flight (st : world) :
  reachable st ->
  (List.length (frames st) <= 1)%nat
  /\ (frames st <> [] ->
      isSpinning (wheel st) = true /\ pending_result_timers st = [])
  /\ (List.length (pending_result_timers st) <= 1)%nat
  /\ (pending_result_timers st <> [] -> isShowingResult (wheel st) = true).
Proof.
  intros Hreach. exact (proj2 (reachable_invariants st Hreach)).
Qed.

Lemma at_most_one_spin_in_flight_witness :
  List.length (frames spinning_page) = 1%nat
  /\ isSpinning (wheel spinning_page) = true
  /\ pending_result_timers spinning_page = [].
Proof.
  destruct (at_most_one_spin_in_flight spinning_page spinning_page_reachable)
    as (_ & Hframes & _).
  split; [reflexivity|]. apply Hframes. discriminate.
Defined.

(** X5. A [spin_wheel] trigger that finds the wheel idle and brings at
    least one item starts a spin: the items are the trigger's, the wheel is
    spinning and shown, the result area is cleared, and, unless the spin
    duration has elapsed by the first call of [animate], one frame is
    requested for an animation that starts at the wheel's rotation and
    carries the trigger's data. Nothing is sent yet. *)
Theorem accepted_trigger_starts_spin
    (event data : value) (labels : list value) (i : spin_inputs) (st : world) :
  get event "action_type" = Normal (VString "spin_wheel") ->
  get event "data" = Normal data ->
  get data "items" = Normal (VArray labels) ->
  labels <> [] ->
  isBusy (wheel st) = false ->
  (Binary64.Math_min
     ((Binary64.of_Z (now_first i) - Binary64.of_Z (now_start i)) / spinDuration) 1
   <? 1)%float = true ->
  exists st' a,
    handleTriggerAction event i st = Normal st'
    /\ items (wheel st') = labels
    /\ isSpinning (wheel st') = true
    /\ isShowingResult (wheel st') = false
    /\ container_hidden (doc st') = false
    /\ result_hidden (doc st') = true
    /\ result_textContent (doc st') = VString ""
    /\ frames st' = frames st ++ [a]
    /\ startTime a = now_start i
    /\ startRotation a = currentRotation (wheel st)
    /\ wheelData a = data
    /\ wire st' = wire st.
Proof.
  intros Ha Hd Hi Hlabels Hbusy Hfirst. unfold handleTriggerAction.
  rewrite Ha, Hd. cbn [bind is_string String.eqb Ascii.eqb Bool.eqb].
  rewrite Hi. cbn [bind truthy Array_isArray andb elements_of].
  unfold spinAndShow.
  change (isBusy (wheel (setItems labels st))) with (isBusy (wheel st)).
  rewrite Hbusy.
  set (st0 := setItems labels st).
  destruct (reset_wheel st0) as (Hitems & Hrot & Hspin & _).
  destruct (reset_world st0) as (Hframes & Hwire & _).
  unfold isBusy in Hbusy. apply orb_false_iff in Hbusy. destruct Hbusy as (Hs & _).
  unfold spin. rewrite Hspin, Hitems. cbn [st0 setItems with_wheel wheel isSpinning
                                          set_items items].
  rewrite Hs. destruct labels as [|label labels]; [contradiction|].
  cbn [List.length Nat.eqb orb]. unfold animate.
  cbn [startTime]. rewrite Hfirst.
  destruct (reset_doc st0) as (Hhidden & _ & Htext & Hshown).
  destruct (reset_wheel st0) as (_ & _ & _ & Hshowing & _).
  generalize dependent (reset st0). intros st1 Hitems Hrot Hspin Hframes Hwire
                                           Hhidden Htext Hshown Hshowing.
  eexists. eexists. split; [reflexivity|].
  cbn. rewrite Hitems, Hrot, Hframes, Hwire, Hhidden, Htext, Hshowing.
  repeat split.
Qed.

Lemma accepted_trigger_starts_spin_witness :
  exists st' a,
    handleTriggerAction (spin_wheel_event ["A"; "B"; "C"] sample_actions)
                        sample_inputs connected_page = Normal st'
    /\ isSpinning (wheel st') = true
    /\ frames st' = [a]
    /\ wire st' = wire connected_page.
Proof.
  destruct (accepted_trigger_starts_spin
              (spin_wheel_event ["A"; "B"; "C"] sample_actions)
              (VObject [("items", VArray [VString "A"; VString "B"; VString "C"]);
                        ("actions", sample_actions)])
              [VString "A"; VString "B"; VString "C"]
              sample_inputs connected_page
              eq_refl eq_refl eq_refl ltac:(discriminate) eq_refl eq_refl)
    as (st' & a & H & _ & Hs & _ & _ & _ & _ & Hf & _ & _ & _ & Hw).
  exists st', a. repeat split; assumption.
Defined.

(** X6. [reset] leaves no trace of the previous display: both timer handles
    are forgotten and the timers they named are cancelled, the result area
    is hidden and empty, the wheel is shown and not showing a result. The
    items, the rotation and [isSpinning] are kept, and no timer is added. *)
Theorem reset_clears_display (st : world) :
  hideTimeout (wheel (reset st)) = None
  /\ resultTimeout (wheel (reset st)) = None
  /\ isShowingResult (wheel (reset st)) = false
  /\ result_hidden (doc (reset st)) = true
  /\ result_fade_out (doc (reset st)) = false
  /\ result_textContent (doc (reset st)) = VString ""
  /\ container_hidden (doc (reset st)) = false
  /\ items (wheel (reset st)) = items (wheel st)
  /\ currentRotation (wheel (reset st)) = currentRotation (wheel st)
  /\ isSpinning (wheel (reset st)) = isSpinning (wheel st)
  /\ (forall handle,
        hideTimeout (wheel st) = Some handle \/ resultTimeout (wheel st) = Some handle ->
        timer_lookup (timers (reset st)) handle = None)
  /\ (forall t, In t (timers (reset st)) -> In t (timers st)).
Proof.
  assert (Hgone : forall handle,
             hideTimeout (wheel st) = Some handle
             \/ resultTimeout (wheel st) = Some handle ->
             timer_lookup (timers (reset st)) handle = None).
  { unfold reset.
    destruct (hideTimeout (wheel st)) as [h|] eqn:Hh; cbn;
      destruct (resultTimeout (wheel st)) as [r|] eqn:Hr; cbn;
      rewrite ?Hh, ?Hr; cbn;
      intros handle [H|H]; try discriminate; injection H as <-;
      try apply timer_lookup_cleared;
      apply timer_lookup_filtered, timer_lookup_cleared. }
  assert (Hkept : forall t, In t (timers (reset st)) -> In t (timers st)).
  { unfold reset.
    destruct (hideTimeout (wheel st)) as [h|] eqn:Hh; cbn;
      destruct (resultTimeout (wheel st)) as [r|] eqn:Hr; cbn;
      rewrite ?Hh, ?Hr; cbn;
      intros t Hin; repeat (apply filter_In in Hin; destruct Hin as (Hin & _));
      exact Hin. }
  destruct (reset_wheel st) as (Hitems & Hrot & Hspin & Hshowing & Hh & Hr).
  destruct (reset_doc st) as (Hhidden & Hfade & Htext & Hshown).
  repeat split; assumption.
Qed.

(** X7. What a completed spin with a winner schedules: the result is shown
    at once, it starts to fade 3000 ms later, and the wheel is hidden 4000
    ms later; the two handles are stored, and a handle stored by an earlier
    display is cancelled first. *)
Theorem winner_display_is_scheduled (data result : value) (st : world) :
  truthy result = true ->
  hideTimeout (wheel st) = None ->
  resultTimeout (wheel st) = None ->
  let st' := spinAndShow_resume data result st in
  timers st' = timers st ++ [{| timer_id := next_timer st; timer_delay := 3000;
                                timer_callback := result_fade |};
                             {| timer_id := Pos.succ (next_timer st);
                                timer_delay := 4000;
                                timer_callback := hide_container |}]
  /\ resultTimeout (wheel st') = Some (next_timer st)
  /\ hideTimeout (wheel st') = Some (Pos.succ (next_timer st))
  /\ result_textContent (doc st') = result
  /\ result_hidden (doc st') = false.
Proof.
  intros Ht Hh Hr. cbv zeta. rewrite (spinAndShow_resume_truthy _ _ _ Ht).
  unfold send, hide, showResult. cbn. rewrite Hr. cbn. rewrite Hh. cbn.
  destruct (ws st) as [id|]; [destruct (is_open _)|]; cbn;
    rewrite <- app_assoc; repeat split.
Qed.

Lemma winner_display_is_scheduled_witness :
  List.length (timers (spinAndShow_resume VUndefined (VString "A") connected_page))
  = 2%nat.
Proof.
  destruct (winner_display_is_scheduled VUndefined (VString "A") connected_page
              eq_refl eq_refl eq_refl) as (Htimers & _).
  rewrite Htimers. reflexivity.
Defined.

(** X8. The display window ends in two steps. When the fade timer fires,
    the result starts to fade and one timer is scheduled, 500 ms later;
    when that timer fires, the result is hidden, the fade is removed and
    the wheel stops showing a result. The items, the rotation and
    [isSpinning] are untouched by both. *)
Theorem display_window_ends (id : positive) (t : timer) (throws : bool) (st st' : world) :
  timer_lookup (timers st) id = Some t ->
  step (ev_timeout id throws) st = Some st' ->
  (timer_callback t = result_fade ->
     result_fade_out (doc st') = true
     /\ timers st' = timers (clearTimeout id st)
                     ++ [{| timer_id := next_timer st; timer_delay := 500;
                            timer_callback := result_clear |}]
     /\ wheel st' = wheel st)
  /\ (timer_callback t = result_clear ->
        result_hidden (doc st') = true
        /\ result_fade_out (doc st') = false
        /\ isShowingResult (wheel st') = false
        /\ isSpinning (wheel st') = isSpinning (wheel st)
        /\ items (wheel st') = items (wheel st)
        /\ currentRotation (wheel st') = currentRotation (wheel st)
        /\ timers st' = timers (clearTimeout id st)).
Proof.
  intros Hl. cbn [step]. rewrite Hl. intros [= <-].
  split; intros ->; cbn; repeat split.
Qed.

Lemma display_window_ends_witness :
  exists st',
    step (ev_timeout 1 false) result_page = Some st'
    /\ isShowingResult (wheel result_page) = true
    /\ result_fade_out (doc st') = true
    /\ List.length (timers st') = 2%nat
    /\ exists st'',
         step (ev_timeout 3 false) st' = Some st''
         /\ isShowingResult (wheel st'') = false
         /\ result_hidden (doc st'') = true.
Proof.
  assert (Hfade : timer_lookup (timers result_page) 1
                  = Some {| timer_id := 1; timer_delay := 3000;
                            timer_callback := result_fade |})
    by (vm_compute; reflexivity).
  destruct (step (ev_timeout 1 false) result_page) as [st'|] eqn:Hstep;
    [|vm_compute in Hstep; discriminate Hstep].
  destruct (proj1 (display_window_ends 1 _ false result_page st' Hfade Hstep) eq_refl)
    as (Hfading & Htimers & _).
  exists st'. split; [reflexivity|]. split; [vm_compute; reflexivity|].
  split; [exact Hfading|]. split; [rewrite Htimers; vm_compute; reflexivity|].
  assert (Hclear : timer_lookup (timers st') 3
                   = Some {| timer_id := 3; timer_delay := 500;
                             timer_callback := result_clear |})
    by (rewrite Htimers; vm_compute; reflexivity).
  destruct (step (ev_timeout 3 false) st') as [st''|] eqn:Hstep';
    [|cbn [step] in Hstep'; rewrite Hclear in Hstep'; discriminate Hstep'].
  destruct (proj2 (display_window_ends 3 _ false st' st'' Hclear Hstep') eq_refl)
    as (Hhidden & _ & Hshowing & _).
  exists st''. split; [reflexivity|]. split; [exact Hshowing | exact Hhidden].
Defined.

(** ** Spin engine: the report of a completed spin *)



(** ** Layout: the drag gesture and the page load *)



